(** * Proctoring backend: event scoring, reports, storage and session store

    A shallow embedding of [app/report.py], [app/storage.py] and the session
    handlers of [app/main.py].  Python dictionaries are finite maps
    ([gmap string _]), Python integers are [Z], time stamps are [Z] counted in
    microseconds (the resolution of [datetime]), byte strings are lists of
    bytes. *)

From Stdlib Require Import ZArith Lia Permutation Ascii String.
From stdpp Require Import base option list sorting strings gmap fin_maps.

Local Open Scope string_scope.
Local Open Scope Z_scope.

(** [d.get(k, 0)] on a dictionary of integers. *)
Definition dict_get (d : gmap string Z) (k : string) : Z := default 0 (d !! k).

(** Python truthiness of a [str]: only the empty string is falsy. *)
Definition truthy (s : string) : bool := negb (String.eqb s "").

(** The integer nearest to [n / d] for [d > 0], the even one of two equally
    near. *)
Definition round_half_even (n d : Z) : Z :=
  let q := n / d in
  let r := n mod d in
  match 2 * r ?= d with
  | Lt => q
  | Gt => q + 1
  | Eq => if Z.even q then q else q + 1
  end.

(** The exponent [e] of the last place of the double nearest to [a / d], for
    [a, d > 0]: [2^52 <= a / (d * 2^e) < 2^53]. *)
Definition float_exponent (a d : Z) : Z :=
  let k := Z.log2 a - Z.log2 d in
  let reached := if 0 <=? k then d * 2 ^ k <=? a else d <=? a * 2 ^ (- k) in
  (if reached then k else k - 1) - 52.

(** [int(n / d)] for Python integers [n] and [d > 0]: the true division
    gives the double nearest to the quotient (53 significant bits, ties to
    even; the quotients met here are far from the ends of the double range),
    and [int] cuts its fraction off. *)
Definition int_true_div (n d : Z) : Z :=
  if n =? 0 then 0
  else
    let a := Z.abs n in
    let e := float_exponent a d in
    let whole :=
      if 0 <=? e then round_half_even a (d * 2 ^ e) * 2 ^ e
      else round_half_even (a * 2 ^ (- e)) d / 2 ^ (- e) in
    Z.sgn n * whole.

(** [int(delta.total_seconds())] for a [timedelta] of [delta] microseconds:
    [total_seconds] is the true division of the microseconds by [10**6]. *)
Definition int_total_seconds (delta : Z) : Z := int_true_div delta 1000000.

(** A [datetime] as the document store keeps it: whole milliseconds, the
    microseconds below them dropped. *)
Definition bson_datetime (t : Z) : Z := 1000 * (t / 1000).

(** The seven category tags, in the order the dictionaries list them. *)
Definition CATEGORIES : list string :=
  ["focus_lost"; "looking_away"; "no_face"; "multiple_faces";
   "phone_detected"; "notes_detected"; "device_detected"].

(** ** app/models.py *)

Record Session := mkSession {
  id : option string;
  candidate_name : string;
  start_time : Z;
  end_time : option Z;
  video_path : option string
}.

Record Event := mkEvent {
  event_id : option string;
  session_id : string;
  event_type : string;
  message : option string;
  timestamp : Z
}.

(** ** app/report.py *)
Module Report.

Definition EVENT_WEIGHTS : gmap string Z :=
  <["focus_lost" := 2]> (<["looking_away" := 2]> (<["no_face" := 5]>
  (<["multiple_faces" := 10]> (<["phone_detected" := 10]>
  (<["notes_detected" := 5]> (<["device_detected" := 8]> ∅)))))).

(** The dictionary literal [summarize_events] starts from. *)
Definition zero_counts : gmap string Z :=
  <["focus_lost" := 0]> (<["looking_away" := 0]> (<["no_face" := 0]>
  (<["multiple_faces" := 0]> (<["phone_detected" := 0]>
  (<["notes_detected" := 0]> (<["device_detected" := 0]> ∅)))))).

(** One turn of the loop of [summarize_events]:
    [key = e.event_type if e.event_type in counts else None] and then
    [if key: counts[key] += 1]. *)
Definition count_event (counts : gmap string Z) (e : Event) : gmap string Z :=
  match counts !! event_type e with
  | Some v =>
      let key := event_type e in
      if truthy key then <[key := v + 1]> counts else counts
  | None => counts
  end.

Definition summarize_events (events : list Event) : gmap string Z :=
  fold_left count_event events zero_counts.

(** One turn of the loop of [compute_integrity_score]:
    [weight = EVENT_WEIGHTS.get(k, 0)] and [score -= v * weight]. *)
Definition penalise (k : string) (v : Z) (score : Z) : Z :=
  let weight := dict_get EVENT_WEIGHTS k in
  score - v * weight.

(** The loop runs over [counts.items()]; [map_fold] visits the same items,
    in an order of its own, which the subtraction does not depend on (see
    [fold_penalise]). *)
Definition compute_integrity_score (counts : gmap string Z) : Z :=
  Z.max 0 (map_fold penalise 100 counts).

(** The duration shown by [write_html_report] (the page itself is text
    around this number and the arguments):
    [int((end_time - start_time).total_seconds())] when both are set.
    A [datetime] is always truthy, and [start_time] is never [None]. *)
Definition html_duration_seconds (session : Session) : Z :=
  match end_time session with
  | Some e => int_total_seconds (e - start_time session)
  | None => 0
  end.

End Report.

(** ** app/storage.py *)
Module Storage.

Abbreviation bytes := (list Byte.byte).

(** [c in s] for a needle of one character. *)
Fixpoint str_contains (c : ascii) (s : string) : bool :=
  match s with
  | EmptyString => false
  | String a rest => if Ascii.eqb a c then true else str_contains c rest
  end.

(** [s.split("/", 1)]: one piece when [s] has no slash, otherwise what is
    before the first slash and what is after it. *)
Fixpoint split1 (s : string) : list string :=
  match s with
  | EmptyString => [EmptyString]
  | String a rest =>
      if Ascii.eqb a "/" then [EmptyString; rest]
      else match split1 rest with
           | head :: tail => String a head :: tail
           | [] => []
           end
  end.

(** How a write ends: the content is stored; or the call raises before
    anything is touched; or it raises after the target was opened for
    writing, and [remains] is what stays there. *)
Inductive WriteOutcome :=
| Written
| Refused
| Torn (remains : bytes).

(** What the program takes from [pathlib], from the file system and from the
    Deta drives, none of which it defines itself. *)
Class Platform := {
  (** [str(Path(directory) / name)] *)
  joinpath : string → string → string;
  (** the file a path leads to; paths that differ as strings can lead to one
      file *)
  file_of : string → string;
  (** how [Path.write_bytes] of this content at this path ends *)
  writing : string → bytes → WriteOutcome;
  (** how [Drive.put] of this content under this name ends *)
  putting : string → bytes → WriteOutcome
}.

(** The three operations of [BaseStorage].  A save gives the reference it
    returns, or [None] when it raises, and the storage as the call leaves
    it; [open_bytes] gives [None] when it raises. *)
Class BaseStorage (S : Type) := {
  save_video_bytes : S → string → bytes → option string * S;
  save_report_bytes : S → string → bytes → string → option string * S;
  open_bytes : S → string → option bytes
}.

Section Backends.
Context `{Platform}.

(** *** LocalStorage: the content of every file, by the file a path leads
    to. *)
Record LocalStorage := mkLocalStorage {
  video_dir : string;
  report_dir : string;
  files : gmap string bytes
}.

(** [path.write_bytes(data)]: whether it returned, and the files after it. *)
Definition write_bytes (path : string) (data : bytes) (fs : gmap string bytes)
  : bool * gmap string bytes :=
  match writing path data with
  | Written => (true, <[file_of path := data]> fs)
  | Refused => (false, fs)
  | Torn remains => (false, <[file_of path := remains]> fs)
  end.

Definition read_bytes (path : string) (fs : gmap string bytes) : option bytes :=
  fs !! file_of path.

(** [key.split("/", 1)[1]]; the index is in range wherever [_resolve] uses it,
    since the key then starts with a prefix that holds a slash. *)
Definition after_slash (key : string) : string := nth 1 (split1 key) "".

Definition _resolve (self : LocalStorage) (key : string) : string :=
  if String.prefix "videos/" key then joinpath (video_dir self) (after_slash key)
  else if String.prefix "reports/" key then joinpath (report_dir self) (after_slash key)
  else joinpath (report_dir self) key.

Definition with_files (self : LocalStorage) (fs : gmap string bytes) : LocalStorage :=
  {| video_dir := video_dir self; report_dir := report_dir self; files := fs |}.

Definition local_save_video_bytes (self : LocalStorage) (key : string) (data : bytes)
  : option string * LocalStorage :=
  let path := _resolve self ("videos/" ++ key) in
  let written := write_bytes path data (files self) in
  (if written.1 then Some path else None, with_files self written.2).

Definition local_save_report_bytes (self : LocalStorage) (key : string) (data : bytes)
    (content_type : string) : option string * LocalStorage :=
  let path := _resolve self ("reports/" ++ key) in
  let written := write_bytes path data (files self) in
  (if written.1 then Some path else None, with_files self written.2).

Definition local_open_bytes (self : LocalStorage) (key : string) : option bytes :=
  let path := _resolve self key in
  read_bytes path (files self).

#[global] Instance LocalStorage_storage : BaseStorage LocalStorage := {|
  save_video_bytes := local_save_video_bytes;
  save_report_bytes := local_save_report_bytes;
  open_bytes := local_open_bytes
|}.

(** *** DetaStorage: two drives, each a store of named blobs. *)
Record DetaStorage := mkDetaStorage {
  videos : gmap string bytes;
  reports : gmap string bytes
}.

(** [drive.put(name, data)]: whether it returned, and the drive after it. *)
Definition put (name : string) (data : bytes) (drive : gmap string bytes)
  : bool * gmap string bytes :=
  match putting name data with
  | Written => (true, <[name := data]> drive)
  | Refused => (false, drive)
  | Torn remains => (false, <[name := remains]> drive)
  end.

Definition deta_save_video_bytes (self : DetaStorage) (key : string) (data : bytes)
  : option string * DetaStorage :=
  let stored := put key data (videos self) in
  (if stored.1 then Some ("videos/" ++ key)%string else None,
   {| videos := stored.2; reports := reports self |}).

Definition deta_save_report_bytes (self : DetaStorage) (key : string) (data : bytes)
    (content_type : string) : option string * DetaStorage :=
  let stored := put key data (reports self) in
  (if stored.1 then Some ("reports/" ++ key)%string else None,
   {| videos := videos self; reports := stored.2 |}).

(** [drive, name = key.split("/", 1) if "/" in key else ("reports", key)],
    then the bucket is [reports] if [drive == "reports"] and [videos]
    otherwise; reading a name the bucket does not hold raises. *)
Definition deta_open_bytes (self : DetaStorage) (key : string) : option bytes :=
  match (if str_contains "/" key then split1 key else ["reports"; key]) with
  | [drive; name] =>
      let bucket := if String.eqb drive "reports" then reports self else videos self in
      bucket !! name
  | _ => None
  end.

#[global] Instance DetaStorage_storage : BaseStorage DetaStorage := {|
  save_video_bytes := deta_save_video_bytes;
  save_report_bytes := deta_save_report_bytes;
  open_bytes := deta_open_bytes
|}.

End Backends.

(** The [backend] attribute, by which the two classes are told apart
    ([isinstance(storage, LocalStorage)] holds exactly for ["local"]). *)
Class Backend (S : Type) := backend : string.

#[global] Instance LocalStorage_backend : Backend LocalStorage := "local".
#[global] Instance DetaStorage_backend : Backend DetaStorage := "deta".

(** [Path(directory) / name] on operands without doubled slashes, single
    dots or a trailing slash: an absolute [name] replaces the directory, and
    a [..] stays as it is written. *)
Definition posix_join (directory name : string) : string :=
  if String.prefix "/" name then name
  else if String.eqb name "" then directory
  else directory ++ "/" ++ name.

(** The segments of a path, [s.split("/")]. *)
Fixpoint split_slashes (s : string) : list string :=
  match s with
  | EmptyString => [EmptyString]
  | String a rest =>
      if Ascii.eqb a "/" then EmptyString :: split_slashes rest
      else match split_slashes rest with
           | head :: tail => String a head :: tail
           | [] => [String a EmptyString]
           end
  end.

(** One segment on the way to a file, the segments walked so far last
    first: empty segments and [.] stay in place, [..] goes one up. *)
Definition walk (rooted : bool) (walked : list string) (segment : string)
  : list string :=
  if String.eqb segment "" || String.eqb segment "." then walked
  else if String.eqb segment ".." then
    match walked with
    | top :: above => if String.eqb top ".." then segment :: walked else above
    | [] => if rooted then [] else [segment]
    end
  else segment :: walked.

Fixpoint join_slashes (segments : list string) : string :=
  match segments with
  | [] => EmptyString
  | [segment] => segment
  | segment :: more => segment ++ "/" ++ join_slashes more
  end.

(** The file a path leads to where no link is in the way: the path with its
    dots resolved. *)
Definition dots_resolved (path : string) : string :=
  let rooted := String.prefix "/" path in
  let walked := fold_left (walk rooted) (split_slashes path) [] in
  (if rooted then "/" else "") ++ join_slashes (rev walked).

(** A platform without links on which every write goes through. *)
Definition permissive : Platform :=
  {| joinpath := posix_join; file_of := dots_resolved;
     writing := λ _ _, Written; putting := λ _ _, Written |}.

End Storage.

(** ** app/schemas.py *)

Record SessionResponse := mkSessionResponse {
  resp_id : string;
  resp_candidate_name : string;
  resp_start_time : Z;
  resp_end_time : option Z;
  resp_video_path : option string
}.


Record LogEventRequest := mkLogEventRequest {
  req_event_type : string;
  req_message : option string;
  req_timestamp : option Z
}.

Record ReportResponse := mkReportResponse {
  report_candidate_name : string;
  report_session_id : string;
  interview_duration_seconds : Z;
  focus_lost_count : Z;
  looking_away_count : Z;
  no_face_segments : Z;
  multiple_faces_count : Z;
  phone_detected_count : Z;
  notes_detected_count : Z;
  device_detected_count : Z;
  suspicious_events_count : Z;
  integrity_score : Z
}.

(** ** app/main.py *)
Module Main.
Import Storage.

(** A document of the sessions collection; its [_id] is the key it is
    stored under. *)
Record SessionDoc := mkSessionDoc {
  doc_candidate_name : string;
  doc_start_time : Z;
  doc_end_time : option Z;
  doc_video_path : option string
}.

(** What a handler gives back: a response, an [HTTPException], or an
    exception it does not catch. *)
Inductive Result (A : Type) :=
| Ok (response : A)
| HTTPException (status_code : Z) (detail : string)
| Raised.
Arguments Ok {A} response.
Arguments HTTPException {A} status_code detail.
Arguments Raised {A}.

(** [$set] of one field by [update_one]. *)
Definition set_end_time (now : Z) (d : SessionDoc) : SessionDoc :=
  {| doc_candidate_name := doc_candidate_name d; doc_start_time := doc_start_time d;
     doc_end_time := Some now; doc_video_path := doc_video_path d |}.

Definition set_video_path (ref : string) (d : SessionDoc) : SessionDoc :=
  {| doc_candidate_name := doc_candidate_name d; doc_start_time := doc_start_time d;
     doc_end_time := doc_end_time d; doc_video_path := Some ref |}.

Definition session_response (session_id : string) (d : SessionDoc) : SessionResponse :=
  {| resp_id := session_id; resp_candidate_name := doc_candidate_name d;
     resp_start_time := doc_start_time d; resp_end_time := doc_end_time d;
     resp_video_path := doc_video_path d |}.

(** The [Session] object the report handlers build from a document. *)
Definition session_obj (session_id : string) (d : SessionDoc) : Session :=
  {| id := Some session_id; candidate_name := doc_candidate_name d;
     start_time := doc_start_time d; end_time := doc_end_time d;
     video_path := doc_video_path d |}.

(** The duration [get_report] puts in its response: 0 unless both times are
    set, else [int((end_time - start_time).total_seconds())]. *)
Definition api_duration_seconds (session_doc : SessionDoc) : Z :=
  match doc_end_time session_doc with
  | Some e => int_total_seconds (e - doc_start_time session_doc)
  | None => 0
  end.

(** [sum([counts.get("multiple_faces", 0), ...])] of [get_report]. *)
Definition suspicious_total (counts : gmap string Z) : Z :=
  foldl Z.add 0
    [dict_get counts "multiple_faces"; dict_get counts "phone_detected";
     dict_get counts "notes_detected"; dict_get counts "device_detected"].

(** The response [get_report] returns for a session and its events. *)
Definition report_response (session_id : string) (session_doc : SessionDoc)
    (events : list Event) : ReportResponse :=
  let counts := Report.summarize_events events in
  let score := Report.compute_integrity_score counts in
  {| report_candidate_name := doc_candidate_name session_doc;
     report_session_id := session_id;
     interview_duration_seconds := api_duration_seconds session_doc;
     focus_lost_count := dict_get counts "focus_lost";
     looking_away_count := dict_get counts "looking_away";
     no_face_segments := dict_get counts "no_face";
     multiple_faces_count := dict_get counts "multiple_faces";
     phone_detected_count := dict_get counts "phone_detected";
     notes_detected_count := dict_get counts "notes_detected";
     device_detected_count := dict_get counts "device_detected";
     suspicious_events_count := suspicious_total counts;
     integrity_score := score |}.

(** [s.endswith(suffix)]: the reversed suffix starts the reversed string. *)
Fixpoint string_rev (s : string) : string :=
  match s with
  | EmptyString => EmptyString
  | String a rest => (string_rev rest ++ String a EmptyString)%string
  end.

Definition endswith (s suffix : string) : bool :=
  String.prefix (string_rev suffix) (string_rev s).

(** Whether a handler returned a response. *)
Definition is_ok {A : Type} (r : Result A) : bool :=
  match r with Ok _ => true | _ => false end.

(** The orders [sort("start_time", -1)] and [sort("timestamp", 1)] sort
    stored documents by. *)
Definition newer (a b : string * SessionDoc) : Prop :=
  doc_start_time b.2 ≤ doc_start_time a.2.

Definition earlier_doc (a b : string * Event) : Prop :=
  timestamp a.2 ≤ timestamp b.2.

#[global] Instance newer_dec : RelDecision newer.
Proof. intros a b. unfold newer. apply _. Defined.

#[global] Instance earlier_doc_dec : RelDecision earlier_doc.
Proof. intros a b. unfold earlier_doc. apply _. Defined.


(** The order [sort("timestamp", 1)] sorts by. *)
Definition earlier (a b : Event) : Prop := timestamp a ≤ timestamp b.

#[global] Instance earlier_dec : RelDecision earlier.
Proof. intros a b. unfold earlier. apply _. Defined.

Section Handlers.
Context {S : Type} `{BaseStorage S}.

(** The two collections and the storage backend chosen at start-up. *)
Record State := mkState {
  sessions_collection : gmap string SessionDoc;
  events_collection : gmap string Event;
  storage : S
}.

Definition with_sessions (st : State) (c : gmap string SessionDoc) : State :=
  {| sessions_collection := c; events_collection := events_collection st;
     storage := storage st |}.

Definition with_events (st : State) (c : gmap string Event) : State :=
  {| sessions_collection := sessions_collection st; events_collection := c;
     storage := storage st |}.

Definition with_storage (st : State) (s : S) : State :=
  {| sessions_collection := sessions_collection st;
     events_collection := events_collection st; storage := s |}.

(** [events_collection.find({"session_id": id}).sort("timestamp", 1)]. *)
Definition find_events (st : State) (sid : string) : list Event :=
  merge_sort earlier
    (filter (λ e, session_id e = sid) (map snd (map_to_list (events_collection st)))).

(** [create_session].  [insert_one] refuses a document whose [_id] is
    taken; the store keeps the start time in milliseconds, the response
    carries it as the clock gave it. *)
Definition create_session (st : State) (uuid : string) (now : Z) (name : string)
  : Result SessionResponse * State :=
  let session_data :=
    {| doc_candidate_name := name; doc_start_time := now;
       doc_end_time := None; doc_video_path := None |} in
  let session_doc :=
    {| doc_candidate_name := name; doc_start_time := bson_datetime now;
       doc_end_time := None; doc_video_path := None |} in
  match sessions_collection st !! uuid with
  | Some _ => (Raised, st)
  | None =>
      (Ok (session_response uuid session_data),
       with_sessions st (<[uuid := session_doc]> (sessions_collection st)))
  end.

(** [log_event]; the stored event has its time stamp in milliseconds. *)
Definition log_event (st : State) (sid uuid : string) (now : Z)
    (payload : LogEventRequest) : Result Event * State :=
  match sessions_collection st !! sid with
  | None => (HTTPException 404 "Session not found", st)
  | Some _ =>
      let event_data :=
        {| event_id := Some uuid; session_id := sid;
           event_type := req_event_type payload; message := req_message payload;
           timestamp := default now (req_timestamp payload) |} in
      let event_doc :=
        {| event_id := Some uuid; session_id := sid;
           event_type := req_event_type payload; message := req_message payload;
           timestamp := bson_datetime (default now (req_timestamp payload)) |} in
      match events_collection st !! uuid with
      | Some _ => (Raised, st)
      | None =>
          (Ok event_data, with_events st (<[uuid := event_doc]> (events_collection st)))
      end
  end.

(** The two awaits of [end_session]: [find_one], and
    [update_one({"_id": id}, {"$set": {"end_time": now}})], which asks for no
    condition on the end time and changes nothing when the id is unknown. *)
Definition end_session_find (st : State) (sid : string) : option SessionDoc :=
  sessions_collection st !! sid.

Definition end_session_update (st : State) (sid : string) (now : Z) : State :=
  with_sessions st
    (alter (set_end_time (bson_datetime now)) sid (sessions_collection st)).

(** [end_session] when nothing comes between its two awaits.  The response
    is built from the document as read, with [now] written into it. *)
Definition end_session (st : State) (sid : string) (now : Z)
  : Result SessionResponse * State :=
  match end_session_find st sid with
  | None => (HTTPException 404 "Session not found", st)
  | Some session_doc =>
      match doc_end_time session_doc with
      | None =>
          (Ok (session_response sid (set_end_time now session_doc)),
           end_session_update st sid now)
      | Some _ => (Ok (session_response sid session_doc), st)
      end
  end.

(** [upload_video]; [suffix] is the extension taken from the uploaded file's
    name, [update_ok] tells whether the [update_one] that follows the save
    returns. *)
Definition upload_video (st : State) (sid suffix : string) (content : bytes)
    (update_ok : bool) : Result SessionResponse * State :=
  match sessions_collection st !! sid with
  | None => (HTTPException 404 "Session not found", st)
  | Some session_doc =>
      match save_video_bytes (storage st) (sid ++ suffix) content with
      | (None, storage') => (Raised, with_storage st storage')
      | (Some saved_ref, storage') =>
          if update_ok then
            (Ok (session_response sid (set_video_path saved_ref session_doc)),
             with_sessions (with_storage st storage')
               (alter (set_video_path saved_ref) sid (sessions_collection st)))
          else (Raised, with_storage st storage')
      end
  end.

(** [import_video]; [source] is the content of the file to import, if that
    file exists. *)
Definition import_video (st : State) (sid suffix : string) (source : option bytes)
    (update_ok : bool) : Result SessionResponse * State :=
  match sessions_collection st !! sid with
  | None => (HTTPException 404 "Session not found", st)
  | Some session_doc =>
      match source with
      | None => (HTTPException 404 "Source video not found", st)
      | Some content =>
          match save_video_bytes (storage st) (sid ++ suffix) content with
          | (None, storage') => (Raised, with_storage st storage')
          | (Some saved_ref, storage') =>
              if update_ok then
                (Ok (session_response sid (set_video_path saved_ref session_doc)),
                 with_sessions (with_storage st storage')
                   (alter (set_video_path saved_ref) sid (sessions_collection st)))
              else (Raised, with_storage st storage')
          end
      end
  end.

(** [get_report]; [html] is the rendered page it stores. *)
Definition get_report (st : State) (sid : string) (html : bytes)
  : Result ReportResponse * State :=
  match sessions_collection st !! sid with
  | None => (HTTPException 404 "Session not found", st)
  | Some session_doc =>
      let events := find_events st sid in
      match save_report_bytes (storage st) ("report_" ++ sid ++ ".html") html "text/html" with
      | (None, storage') => (Raised, with_storage st storage')
      | (Some _, storage') =>
          (Ok (report_response sid session_doc events), with_storage st storage')
      end
  end.

(** [download_report_csv]; [csv] is the encoded document it stores and
    streams. *)
Definition download_report_csv (st : State) (sid : string) (csv : bytes)
  : Result bytes * State :=
  match sessions_collection st !! sid with
  | None => (HTTPException 404 "Session not found", st)
  | Some _ =>
      match save_report_bytes (storage st) ("report_" ++ sid ++ ".csv") csv "text/csv" with
      | (None, storage') => (Raised, with_storage st storage')
      | (Some _, storage') => (Ok csv, with_storage st storage')
      end
  end.

(** The requests that reach the handlers; [list_sessions], [get_session],
    [get_video] and [get_report_file] only read. *)
Inductive Request :=
| CreateSession (uuid : string) (now : Z) (name : string)
| ListSessions
| GetSession (sid : string)
| LogEvent (sid uuid : string) (now : Z) (payload : LogEventRequest)
| EndSession (sid : string) (now : Z)
| UploadVideo (sid suffix : string) (content : bytes) (update_ok : bool)
| ImportVideo (sid suffix : string) (source : option bytes) (update_ok : bool)
| GetReport (sid : string) (html : bytes)
| DownloadReportCsv (sid : string) (csv : bytes)
| GetVideo (name : string)
| GetReportFile (name : string).

(** The state a request leaves behind when it is handled without giving
    way. *)
Definition handle (st : State) (r : Request) : State :=
  match r with
  | CreateSession uuid now name => snd (create_session st uuid now name)
  | LogEvent sid uuid now payload => snd (log_event st sid uuid now payload)
  | EndSession sid now => snd (end_session st sid now)
  | UploadVideo sid suffix content update_ok =>
      snd (upload_video st sid suffix content update_ok)
  | ImportVideo sid suffix source update_ok =>
      snd (import_video st sid suffix source update_ok)
  | GetReport sid html => snd (get_report st sid html)
  | DownloadReportCsv sid csv => snd (download_report_csv st sid csv)
  | ListSessions | GetSession _ | GetVideo _ | GetReportFile _ => st
  end.

(** *** Calls in flight

    A handler gives way at each [await], so the steps of two requests can
    alternate.  What the other handlers write does not hang on what they
    read before: an insert under a new id, a [$set] of the video path, a
    blob.  [end_session] alone decides on its write by an earlier read, so
    its two awaits are steps of their own here, and a call stays in flight
    between them. *)
Record Server := mkServer {
  store : State;
  (** the calls of [end_session] that read a session without end time and
      have not written yet, each with its session id and its time *)
  in_flight : list (string * Z)
}.

Inductive Action :=
| Serve (r : Request)
| EndSessionFind (sid : string) (now : Z)
| EndSessionUpdate (i : nat).

Definition act (sv : Server) (a : Action) : Server :=
  match a with
  | Serve r => mkServer (handle (store sv) r) (in_flight sv)
  | EndSessionFind sid now =>
      match end_session_find (store sv) sid with
      | Some session_doc =>
          match doc_end_time session_doc with
          | None => mkServer (store sv) (in_flight sv ++ [(sid, now)])
          | Some _ => sv
          end
      | None => sv
      end
  | EndSessionUpdate i =>
      match in_flight sv !! i with
      | Some call =>
          mkServer (end_session_update (store sv) call.1 call.2)
            (delete i (in_flight sv))
      | None => sv
      end
  end.

(** The end time the store holds for a session, if the session is stored. *)
Definition stored_end_time (st : State) (sid : string) : option (option Z) :=
  doc_end_time <$> sessions_collection st !! sid.

(** Session [sid] exists and its end time is [t]. *)
Definition ended_at (st : State) (sid : string) (t : Z) : Prop :=
  ∃ d, sessions_collection st !! sid = Some d ∧ doc_end_time d = Some t.

(** [list_sessions]: every stored session, newest first. *)
Definition list_sessions (st : State) : list SessionResponse :=
  map (λ doc, session_response doc.1 doc.2)
    (merge_sort newer (map_to_list (sessions_collection st))).



(** [get_video]: refused on the local backend, otherwise the stored bytes
    under [videos/name]. *)
Definition get_video `{!Backend S} (st : State) (name : string) : Result bytes :=
  if String.eqb (backend (S := S)) "local"
  then HTTPException 404 "Use /videos static mount"
  else match open_bytes (storage st) ("videos/" ++ name) with
       | Some data => Ok data
       | None => Raised
       end.

(** [get_report_file]: as [get_video], with the media type read off the
    name. *)
Definition get_report_file `{!Backend S} (st : State) (name : string)
  : Result (bytes * string) :=
  if String.eqb (backend (S := S)) "local"
  then HTTPException 404 "Use /reports static mount"
  else match open_bytes (storage st) ("reports/" ++ name) with
       | Some data =>
           let media := if endswith name ".html" then "text/html" else "text/csv" in
           Ok (data, media)
       | None => Raised
       end.

End Handlers.
Arguments State S : clear implicits.
Arguments Server S : clear implicits.

End Main.

(** ** The CSV report *)

(** A cell of a CSV row: text or a whole number. *)
Inductive Cell :=
| Text (s : string)
| Number (n : Z).

Definition csv_header : list string :=
  ["candidate_name"; "session_id"; "interview_duration_seconds";
   "focus_lost_count"; "looking_away_count"; "no_face_segments";
   "multiple_faces_count"; "phone_detected_count"; "notes_detected_count";
   "device_detected_count"; "suspicious_events_count"; "integrity_score"].

(** Modelled from the spec: [build_csv_report_content], which [app/main.py]
    imports from [app/report.py] and that file does not define.  The spec
    asks for a header row and one data row with the candidate name, the
    session id, the duration (computed as everywhere else), the seven
    category counts, the aggregate suspicious-event count and the integrity
    score; the column names are those of [ReportResponse]. *)
Definition build_csv_report_content (session : Session) (counts : gmap string Z)
    (integrity_score : Z) : list (list Cell) :=
  [ map Text csv_header;
    [ Text (candidate_name session); Text (default "" (id session));
      Number (Report.html_duration_seconds session);
      Number (dict_get counts "focus_lost"); Number (dict_get counts "looking_away");
      Number (dict_get counts "no_face"); Number (dict_get counts "multiple_faces");
      Number (dict_get counts "phone_detected"); Number (dict_get counts "notes_detected");
      Number (dict_get counts "device_detected");
      Number (Main.suspicious_total counts); Number integrity_score ] ].

(** ** Vocabulary of the statements *)

(** The total of a counts dictionary, [sum(counts.values())]. *)
Definition sum_values (counts : gmap string Z) : Z :=
  map_fold (λ _ v acc, acc + v) 0 counts.

(** The penalty as the weight table of the glossary gives it: each of the
    seven counts times its weight, a missing count being 0. *)
Definition weighted_penalty (counts : gmap string Z) : Z :=
  dict_get counts "focus_lost" * 2 + dict_get counts "looking_away" * 2
  + dict_get counts "no_face" * 5 + dict_get counts "multiple_faces" * 10
  + dict_get counts "phone_detected" * 10 + dict_get counts "notes_detected" * 5
  + dict_get counts "device_detected" * 8.

(** How many events of the log carry the tag [k]. *)
Definition occurrences (k : string) (events : list Event) : Z :=
  Z.of_nat (length (filter (λ e, event_type e = k) events)).

(** How many events of the log carry one of the seven tags. *)
Definition recognised (events : list Event) : Z :=
  Z.of_nat (length (filter (λ e, event_type e ∈ CATEGORIES) events)).


(** The directories [app/main.py] hands to the local backend, nothing stored
    yet. *)
Definition fresh_local : Storage.LocalStorage :=
  Storage.mkLocalStorage "data/videos" "data/reports" ∅.

Definition fresh_deta : Storage.DetaStorage := Storage.mkDetaStorage ∅ ∅.

(** A store with one session, started at 10 ms and not ended. *)
Definition one_open_session : Main.State Storage.DetaStorage :=
  Main.mkState {["s1" := Main.mkSessionDoc "Ada" 10000 None None]} ∅ fresh_deta.


(** * Properties *)

Section WeightTable.

Lemma weights_outside (k : string) :
  k ∉ CATEGORIES → dict_get Report.EVENT_WEIGHTS k = 0.
Proof.
  intros Hk. unfold dict_get, Report.EVENT_WEIGHTS.
  rewrite !lookup_insert_ne, lookup_empty; [done|..];
    intros <-; apply Hk; by repeat constructor.
Qed.

Lemma dict_get_insert_eq (d : gmap string Z) k v :
  dict_get (<[k := v]> d) k = v.
Proof. unfold dict_get. by rewrite lookup_insert_eq. Qed.

Lemma dict_get_insert_ne (d : gmap string Z) k k' v :
  k ≠ k' → dict_get (<[k := v]> d) k' = dict_get d k'.
Proof. intros. unfold dict_get. by rewrite lookup_insert_ne. Qed.

Lemma dict_get_None (d : gmap string Z) k : d !! k = None → dict_get d k = 0.
Proof. unfold dict_get. by intros ->. Qed.

(** Reads a literal key off the weight table. *)
Ltac eval_weight :=
  repeat match goal with
  | |- context [dict_get Report.EVENT_WEIGHTS (String ?a ?s)] =>
      let v := eval vm_compute in (dict_get Report.EVENT_WEIGHTS (String a s)) in
      change (dict_get Report.EVENT_WEIGHTS (String a s)) with v
  end.

(** Writing count [x] under key [i] moves the penalty by the change of
    that count times the weight of [i]. *)
Lemma weighted_penalty_insert (d : gmap string Z) i x :
  weighted_penalty (<[i := x]> d)
  = weighted_penalty d + (x - dict_get d i) * dict_get Report.EVENT_WEIGHTS i.
Proof.
  unfold weighted_penalty.
  destruct (decide (i ∈ CATEGORIES)) as [Hin|Hout].
  - unfold CATEGORIES in Hin.
    repeat (apply elem_of_cons in Hin as [->|Hin]);
      [..|by apply elem_of_nil in Hin];
      rewrite dict_get_insert_eq, !dict_get_insert_ne by done;
      eval_weight; lia.
  - rewrite (weights_outside _ Hout).
    rewrite !dict_get_insert_ne; [lia|..];
      intros ->; apply Hout; by repeat constructor.
Qed.

Lemma fold_penalise (d : gmap string Z) (a : Z) :
  map_fold Report.penalise a d = a - weighted_penalty d.
Proof.
  apply (map_fold_weak_ind (λ r m, r = a - weighted_penalty m)).
  - unfold weighted_penalty, dict_get.
    rewrite !lookup_empty. simpl. lia.
  - intros i x m r Hi ->.
    rewrite weighted_penalty_insert, (dict_get_None m i Hi).
    unfold Report.penalise. lia.
Qed.

Lemma weights_nonneg (k : string) : 0 ≤ dict_get Report.EVENT_WEIGHTS k.
Proof.
  destruct (decide (k ∈ CATEGORIES)) as [Hin|Hout].
  - unfold CATEGORIES in Hin.
    repeat (apply elem_of_cons in Hin as [->|Hin]);
      [..|by apply elem_of_nil in Hin]; by vm_compute.
  - by rewrite weights_outside.
Qed.

Lemma dict_get_nonneg (d : gmap string Z) k :
  map_Forall (λ _ v, 0 ≤ v) d → 0 ≤ dict_get d k.
Proof.
  intros Hd. unfold dict_get.
  destruct (d !! k) as [v|] eqn:Hk; simpl; [by eapply Hd|lia].
Qed.

Lemma weighted_penalty_nonneg (d : gmap string Z) :
  map_Forall (λ _ v, 0 ≤ v) d → 0 ≤ weighted_penalty d.
Proof.
  intros Hd. unfold weighted_penalty.
  pose proof (dict_get_nonneg d "focus_lost" Hd).
  pose proof (dict_get_nonneg d "looking_away" Hd).
  pose proof (dict_get_nonneg d "no_face" Hd).
  pose proof (dict_get_nonneg d "multiple_faces" Hd).
  pose proof (dict_get_nonneg d "phone_detected" Hd).
  pose proof (dict_get_nonneg d "notes_detected" Hd).
  pose proof (dict_get_nonneg d "device_detected" Hd).
  lia.
Qed.

End WeightTable.

(** ** Integrity score *)

(** C1: for every counts dictionary (whatever the sign of its values),
    [compute_integrity_score] is [max(0, 100 - sum of count * weight)] over the
    seven categories with the weights 2, 2, 5, 10, 10, 5, 8; the counts
    [{focus_lost: 2, phone_detected: 1}] score 86 and 25 [multiple_faces]
    score 0. *)
Theorem compute_integrity_score_formula :
  (∀ counts : gmap string Z,
     Report.compute_integrity_score counts
     = Z.max 0 (100 - weighted_penalty counts))
  ∧ Report.compute_integrity_score
      (<["focus_lost" := 2]> (<["phone_detected" := 1]> Report.zero_counts)) = 86
  ∧ Report.compute_integrity_score
      (<["multiple_faces" := 25]> Report.zero_counts) = 0.
Proof.
  split; [|split].
  - intros counts. unfold Report.compute_integrity_score.
    by rewrite fold_penalise.
  - by vm_compute.
  - by vm_compute.
Qed.

(** C6: on non-negative counts the score lies in [0, 100], and raising the
    count stored under any one key, the others untouched, never raises the
    score. *)
Theorem compute_integrity_score_bounded_monotone (counts : gmap string Z) :
  map_Forall (λ _ v, 0 ≤ v) counts →
  0 ≤ Report.compute_integrity_score counts ≤ 100
  ∧ ∀ k v', dict_get counts k ≤ v' →
      Report.compute_integrity_score (<[k := v']> counts)
      ≤ Report.compute_integrity_score counts.
Proof.
  intros Hpos. unfold Report.compute_integrity_score.
  rewrite fold_penalise. split.
  - pose proof (weighted_penalty_nonneg counts Hpos). lia.
  - intros k v' Hle. rewrite fold_penalise, weighted_penalty_insert.
    pose proof (weights_nonneg k). nia.
Qed.

Lemma compute_integrity_score_bounded_monotone_witness :
  map_Forall (λ _ v, 0 ≤ v) (<["no_face" := 3]> Report.zero_counts)
  ∧ 0 ≤ Report.compute_integrity_score (<["no_face" := 3]> Report.zero_counts) ≤ 100
  ∧ Report.compute_integrity_score
      (<["no_face" := 4]> (<["no_face" := 3]> Report.zero_counts))
    ≤ Report.compute_integrity_score (<["no_face" := 3]> Report.zero_counts).
Proof.
  assert (Hpos : map_Forall (λ _ v, 0 ≤ v) (<["no_face" := 3]> Report.zero_counts)).
  { apply (bool_decide_unpack _). vm_compute. exact I. }
  split; [exact Hpos|].
  destruct (compute_integrity_score_bounded_monotone _ Hpos) as [Hb Hm].
  split; [exact Hb|]. apply Hm. vm_compute. discriminate.
Defined.

(** ** Event summary *)

Section Summarizer.

Lemma truthy_nonempty (s : string) : s ≠ "" → truthy s = true.
Proof.
  intros Hs. unfold truthy. destruct (String.eqb s "") eqn:E; [|done].
  by apply String.eqb_eq in E.
Qed.

Lemma zero_counts_lookup (k : string) :
  Report.zero_counts !! k = if decide (k ∈ CATEGORIES) then Some 0 else None.
Proof.
  case_decide as Hk.
  - unfold CATEGORIES in Hk.
    repeat (apply elem_of_cons in Hk as [->|Hk]);
      [..|by apply elem_of_nil in Hk]; by vm_compute.
  - unfold Report.zero_counts.
    rewrite !lookup_insert_ne, lookup_empty; [done|..];
      intros <-; apply Hk; by repeat constructor.
Qed.

Lemma empty_tag_not_category : "" ∉ CATEGORIES.
Proof. by intros H%list_elem_of_In; simpl in H; intuition. Qed.

(** What the loop leaves under each key: the keys stay, each count grows by
    the number of events tagged with it. *)
Lemma fold_count_event_lookup (events : list Event) (m : gmap string Z) k :
  m !! "" = None →
  fold_left Report.count_event events m !! k
  = (λ v, v + occurrences k events) <$> (m !! k).
Proof.
  unfold occurrences. revert m.
  induction events as [|e events IH]; intros m Hm; simpl.
  { destruct (m !! k); simpl; [f_equal; lia|done]. }
  unfold Report.count_event at 2.
  destruct (m !! event_type e) as [v|] eqn:He.
  - assert (event_type e ≠ "") as Hne by (intros Heq; congruence).
    rewrite (truthy_nonempty _ Hne).
    rewrite IH by (by rewrite lookup_insert_ne).
    destruct (decide (event_type e = k)) as [<-|Hk].
    + rewrite lookup_insert_eq, He, filter_cons_True by done. simpl.
      f_equal. lia.
    + by rewrite lookup_insert_ne, filter_cons_False.
  - rewrite IH by done.
    destruct (decide (event_type e = k)) as [<-|Hk].
    + by rewrite He.
    + by rewrite filter_cons_False.
Qed.

Lemma summarize_events_lookup (events : list Event) (k : string) :
  Report.summarize_events events !! k
  = if decide (k ∈ CATEGORIES) then Some (occurrences k events) else None.
Proof.
  unfold Report.summarize_events.
  rewrite fold_count_event_lookup, zero_counts_lookup.
  - by case_decide.
  - rewrite zero_counts_lookup. case_decide as H; [|done].
    by apply empty_tag_not_category in H.
Qed.

Lemma sum_values_insert (m : gmap string Z) k x :
  m !! k = None → sum_values (<[k := x]> m) = sum_values m + x.
Proof.
  intros Hk. unfold sum_values.
  rewrite map_fold_insert_L; [done| |done]. intros; lia.
Qed.

(** Overwriting a count moves the total by the difference. *)
Lemma sum_values_update (m : gmap string Z) k v x :
  m !! k = Some v →
  sum_values (<[k := x]> m) = sum_values m + (x - v).
Proof.
  intros Hk.
  rewrite <-(insert_delete_id m k v Hk) at 2.
  rewrite <-(insert_delete_eq m k x).
  rewrite !sum_values_insert by apply lookup_delete_eq. lia.
Qed.

Lemma fold_count_event_sum (events : list Event) (m : gmap string Z) :
  (∀ k, is_Some (m !! k) ↔ k ∈ CATEGORIES) →
  sum_values (fold_left Report.count_event events m)
  = sum_values m + recognised events.
Proof.
  unfold recognised. revert m.
  induction events as [|e events IH]; intros m Hm; simpl; [lia|].
  unfold Report.count_event at 2.
  destruct (m !! event_type e) as [v|] eqn:He.
  - assert (event_type e ∈ CATEGORIES) as Hin by (apply Hm; eauto).
    assert (event_type e ≠ "") as Hne.
    { intros Heq. rewrite Heq in Hin. by apply empty_tag_not_category in Hin. }
    rewrite (truthy_nonempty _ Hne), IH.
    + rewrite (sum_values_update _ _ _ _ He), filter_cons_True by done.
      simpl. lia.
    + intros k. rewrite lookup_insert_is_Some, <-Hm. split.
      * intros [<-|[_ ?]]; [eauto|done].
      * intros Hs. destruct (decide (event_type e = k)); [by left|by right].
  - assert (event_type e ∉ CATEGORIES) as Hout.
    { intros Hin. apply Hm in Hin as [? ?]. congruence. }
    by rewrite IH, filter_cons_False.
Qed.

Lemma zero_counts_keys k : is_Some (Report.zero_counts !! k) ↔ k ∈ CATEGORIES.
Proof.
  rewrite zero_counts_lookup.
  case_decide; split; first [done | by eauto | by intros [? ?]].
Qed.

Lemma summarize_events_sum (events : list Event) :
  sum_values (Report.summarize_events events) = recognised events.
Proof.
  unfold Report.summarize_events.
  rewrite fold_count_event_sum by apply zero_counts_keys.
  by vm_compute (sum_values Report.zero_counts).
Qed.

Lemma filter_length_all {A} (P : A → Prop) `{!∀ x, Decision (P x)} (l : list A) :
  length (filter P l) = length l ↔ Forall P l.
Proof.
  induction l as [|x l IH]; simpl; [by split|].
  destruct (decide (P x)) as [Hx|Hx].
  - rewrite filter_cons_True by done. simpl.
    rewrite Forall_cons. split.
    + intros Hl. split; [done|]. apply IH. lia.
    + intros [_ Hl]. f_equal. by apply IH.
  - rewrite filter_cons_False by done. split.
    + intros Hl. pose proof (length_filter P l). lia.
    + by intros [? _]%Forall_cons.
Qed.

Lemma occurrences_none (k : string) (events : list Event) :
  Forall (λ e, event_type e ≠ k) events → occurrences k events = 0.
Proof.
  unfold occurrences. induction 1 as [|e events He _ IH]; [done|].
  by rewrite filter_cons_False by (intros ?; by apply He).
Qed.

End Summarizer.

(** C4: the summary holds exactly the seven category keys, each with the
    number of events carrying that tag (so 0 where none does); its values sum
    to at most the number of events, and to exactly that number precisely
    when every event carries one of the seven tags. *)
Theorem summarize_events_counts (events : list Event) :
  dom (Report.summarize_events events) = list_to_set CATEGORIES
  ∧ (∀ k, k ∈ CATEGORIES →
       Report.summarize_events events !! k = Some (occurrences k events))
  ∧ (∀ k, k ∈ CATEGORIES → Forall (λ e, event_type e ≠ k) events →
       Report.summarize_events events !! k = Some 0)
  ∧ sum_values (Report.summarize_events events) ≤ Z.of_nat (length events)
  ∧ (sum_values (Report.summarize_events events) = Z.of_nat (length events)
     ↔ Forall (λ e, event_type e ∈ CATEGORIES) events).
Proof.
  split; [|split; [|split; [|split; [|split]]]].
  - apply set_eq. intros k.
    rewrite elem_of_dom, elem_of_list_to_set, summarize_events_lookup.
    case_decide; split; first [done | by eauto | by intros [? ?]].
  - intros k Hk. rewrite summarize_events_lookup. by case_decide.
  - intros k Hk Hnone. rewrite summarize_events_lookup.
    case_decide; [|done]. by rewrite occurrences_none.
  - rewrite summarize_events_sum. unfold recognised.
    pose proof (length_filter (λ e, event_type e ∈ CATEGORIES) events). lia.
  - rewrite summarize_events_sum. unfold recognised. intros H.
    apply (filter_length_all (λ e, event_type e ∈ CATEGORIES)). lia.
  - rewrite summarize_events_sum. unfold recognised. intros H.
    apply (filter_length_all (λ e, event_type e ∈ CATEGORIES)) in H. lia.
Qed.

Lemma summarize_events_counts_witness :
  let e t := mkEvent None "s1" t None 0 in
  Report.summarize_events [e "no_face"; e "yawning"] !! "no_face" = Some 1
  ∧ Report.summarize_events [e "no_face"; e "yawning"] !! "focus_lost" = Some 0
  ∧ sum_values (Report.summarize_events [e "no_face"; e "yawning"]) ≤ 2.
Proof.
  intros e.
  destruct (summarize_events_counts [e "no_face"; e "yawning"])
    as (_ & Hcount & Hzero & Hle & _).
  split; [|split].
  - rewrite (Hcount "no_face"); [reflexivity|by repeat constructor].
  - apply Hzero; [by repeat constructor|].
    repeat constructor; discriminate.
  - exact Hle.
Defined.

(** C7: the summary of a log does not depend on the order of its events: any
    permutation of the log gives the same dictionary.  [summarize_events]
    reads only the [event_type] of each event and builds its dictionary
    afresh, so the result is a function of the log alone. *)
Theorem summarize_events_permutation (events events' : list Event) :
  events ≡ₚ events' →
  Report.summarize_events events = Report.summarize_events events'.
Proof.
  intros Hperm. apply map_eq. intros k.
  rewrite !summarize_events_lookup. case_decide; [|done].
  unfold occurrences. by rewrite Hperm.
Qed.

Lemma summarize_events_permutation_witness :
  let e t := mkEvent None "s1" t None 0 in
  [e "focus_lost"; e "phone_detected"; e "focus_lost"]
    ≡ₚ [e "phone_detected"; e "focus_lost"; e "focus_lost"]
  ∧ Report.summarize_events [e "focus_lost"; e "phone_detected"; e "focus_lost"]
    = Report.summarize_events [e "phone_detected"; e "focus_lost"; e "focus_lost"].
Proof.
  intros e.
  assert (Hp : [e "focus_lost"; e "phone_detected"; e "focus_lost"]
                 ≡ₚ [e "phone_detected"; e "focus_lost"; e "focus_lost"])
    by apply perm_swap.
  split; [exact Hp|]. exact (summarize_events_permutation _ _ Hp).
Defined.

(** The scenario of the spec: two [focus_lost] and one [phone_detected]. *)
Example scenario_score_86 :
  Report.compute_integrity_score
    (Report.summarize_events
       [mkEvent None "s1" "focus_lost" None 1; mkEvent None "s1" "focus_lost" None 2;
        mkEvent None "s1" "phone_detected" None 3]) = 86.
Proof. by vm_compute. Qed.

Example scenario_unknown_tag_ignored :
  Report.summarize_events [mkEvent None "s1" "yawning" None 1] = Report.zero_counts.
Proof. by vm_compute. Qed.

(** ** Storage *)

Section StringSplit.
Import Storage.

Lemma str_contains_app p name :
  str_contains "/" (p ++ "/" ++ name)%string = true.
Proof. induction p as [|a p IH]; simpl; [done|]. by destruct (Ascii.eqb a "/"). Qed.

Lemma split1_app p name :
  str_contains "/" p = false → split1 (p ++ "/" ++ name)%string = [p; name].
Proof.
  induction p as [|a p IH]; simpl; [done|].
  destruct (Ascii.eqb a "/"); [done|]. intros Hp. by rewrite IH.
Qed.

Lemma split1_no_slash key : str_contains "/" key = false → split1 key = [key].
Proof.
  induction key as [|a key IH]; simpl; [done|].
  destruct (Ascii.eqb a "/"); [done|]. intros Hk. by rewrite IH.
Qed.

Example split1_first_slash_only : split1 "a/b/c" = ["a"; "b/c"].
Proof. reflexivity. Qed.

Example split1_without_slash : split1 "report.html" = ["report.html"].
Proof. reflexivity. Qed.

Example posix_join_relative :
  posix_join "data/reports" "data/videos/s1.webm" = "data/reports/data/videos/s1.webm".
Proof. reflexivity. Qed.

Example posix_join_absolute : posix_join "data/reports" "/srv/v/s1.webm" = "/srv/v/s1.webm".
Proof. reflexivity. Qed.

End StringSplit.

Section StorageProperties.
Import Storage.
Context `{Platform}.

Lemma resolve_videos (self : LocalStorage) key :
  _resolve self ("videos/" ++ key) = joinpath (video_dir self) key.
Proof. unfold _resolve. by destruct key. Qed.



(** A write that returns has stored the content in the file of the path. *)
Lemma write_bytes_returns path data fs fs' :
  write_bytes path data fs = (true, fs') → fs' = <[file_of path := data]> fs.
Proof. unfold write_bytes. destruct (writing path data); by intros [= <-]. Qed.

Lemma put_returns name data drive drive' :
  put name data drive = (true, drive') → drive' = <[name := data]> drive.
Proof. unfold put. destruct (putting name data); by intros [= <-]. Qed.

Lemma local_save_video_returns (self self' : LocalStorage) key data ref :
  local_save_video_bytes self key data = (Some ref, self') →
  ref = joinpath (video_dir self) key
  ∧ self' = with_files self (<[file_of ref := data]> (files self)).
Proof.
  unfold local_save_video_bytes. rewrite resolve_videos.
  destruct (write_bytes _ data (files self)) as [[] fs] eqn:Hw; simpl; [|done].
  intros [= <- <-]. by rewrite (write_bytes_returns _ _ _ _ Hw).
Qed.


Lemma deta_save_video_returns (self self' : DetaStorage) key data ref :
  deta_save_video_bytes self key data = (Some ref, self') →
  ref = ("videos/" ++ key)%string
  ∧ self' = {| videos := <[key := data]> (videos self); reports := reports self |}.
Proof.
  unfold deta_save_video_bytes.
  destruct (put key data (videos self)) as [[] drive] eqn:Hp; simpl; [|done].
  intros [= <- <-]. by rewrite (put_returns _ _ _ _ Hp).
Qed.

Lemma deta_save_report_returns (self self' : DetaStorage) key data ct ref :
  deta_save_report_bytes self key data ct = (Some ref, self') →
  ref = ("reports/" ++ key)%string
  ∧ self' = {| videos := videos self; reports := <[key := data]> (reports self) |}.
Proof.
  unfold deta_save_report_bytes.
  destruct (put key data (reports self)) as [[] drive] eqn:Hp; simpl; [|done].
  intros [= <- <-]. by rewrite (put_returns _ _ _ _ Hp).
Qed.


End StorageProperties.




(** C10: on the Deta backend a key with a slash is read from the videos
    bucket unless what stands before its first slash is exactly [reports];
    so is ["foo/name"].  Only a key without any slash falls back to the
    reports bucket. *)
Theorem deta_open_bytes_routing `{Storage.Platform} (self : Storage.DetaStorage) :
  (∀ drive name, Storage.str_contains "/" drive = false → drive ≠ "reports" →
     Storage.open_bytes self (drive ++ "/" ++ name)%string = Storage.videos self !! name)
  ∧ (∀ name,
       Storage.open_bytes self ("reports/" ++ name)%string = Storage.reports self !! name)
  ∧ (∀ key, Storage.str_contains "/" key = false →
       Storage.open_bytes self key = Storage.reports self !! key)
  ∧ Storage.open_bytes self "videos/name" = Storage.videos self !! "name"
  ∧ Storage.open_bytes self "foo/name" = Storage.videos self !! "name".
Proof.
  split; [|split; [|split; [|split]]].
  - intros drive name Hd Hne. simpl. unfold Storage.deta_open_bytes.
    rewrite str_contains_app, split1_app by done.
    destruct (String.eqb drive "reports") eqn:E; [|done].
    by apply String.eqb_eq in E.
  - intros name. reflexivity.
  - intros key Hk. simpl. unfold Storage.deta_open_bytes. by rewrite Hk.
  - reflexivity.
  - reflexivity.
Qed.

Lemma deta_open_bytes_routing_witness :
  let H := Storage.permissive in
  let self := Storage.mkDetaStorage {["name" := [Byte.x01]]} {["name" := [Byte.x02]]} in
  Storage.open_bytes self ("foo" ++ "/" ++ "name")%string = Some [Byte.x01]
  ∧ Storage.open_bytes self "name" = Some [Byte.x02].
Proof.
  intros P self. destruct (@deta_open_bytes_routing P self) as (Hv & _ & Hr & _).
  split.
  - rewrite (Hv "foo" "name"); [reflexivity|reflexivity|discriminate].
  - rewrite (Hr "name"); reflexivity.
Defined.

(** ** Durations *)

Section SecondsOfDoubles.

Lemma round_half_even_near (x d : Z) :
  0 < d → - d ≤ 2 * (round_half_even x d * d - x) ≤ d.
Proof.
  intros Hd. unfold round_half_even.
  pose proof (Z.div_mod x d ltac:(lia)) as Hx.
  pose proof (Z.mod_pos_bound x d Hd) as Hr.
  set (q := x / d) in *. set (r := x mod d) in *.
  rewrite (Z.mul_comm d q) in Hx. clearbody q r.
  destruct (2 * r ?= d) eqn:E.
  - apply Z.compare_eq in E. destruct (Z.even q); lia.
  - rewrite Z.compare_lt_iff in E. lia.
  - rewrite Z.compare_gt_iff in E. lia.
Qed.

Lemma round_half_even_nonneg (x d : Z) :
  0 ≤ x → 0 < d → 0 ≤ round_half_even x d.
Proof.
  intros Hx Hd. unfold round_half_even.
  pose proof (Z.div_pos x d Hx Hd).
  destruct (2 * (x mod d) ?= d); [destruct (Z.even (x / d))|..]; lia.
Qed.

(** Below 2^33 seconds the last place of the double is at most 2^-20. *)
Lemma float_exponent_small (a : Z) :
  0 < a < 2 ^ 33 * 1000000 → float_exponent a 1000000 ≤ -20.
Proof.
  intros [Hpos Hlt]. unfold float_exponent.
  change (Z.log2 1000000) with 19.
  assert (Z.log2 a < 53) as Hlog by (apply Z.log2_lt_pow2; lia).
  destruct (0 <=? Z.log2 a - 19) eqn:Hk.
  - destruct (1000000 * 2 ^ (Z.log2 a - 19) <=? a) eqn:Hreach; [|lia].
    apply Z.leb_le in Hreach.
    assert (2 ^ (Z.log2 a - 19) < 2 ^ 33) as Hpow by lia.
    apply Z.pow_lt_mono_r_iff in Hpow; lia.
  - apply Z.leb_gt in Hk. destruct (_ <=? _); lia.
Qed.

(** With the last place at 2^-19 or below, cutting the double nearest to
    [a / 10^6] gives the whole seconds of [a]. *)
Lemma whole_of_nearest (a m P : Z) :
  0 ≤ a → 524288 ≤ P →
  - 1000000 ≤ 2 * (m * 1000000 - a * P) ≤ 1000000 →
  m / P = a / 1000000.
Proof.
  intros Ha HP Hnear.
  pose proof (Z.div_mod a 1000000 ltac:(lia)) as Hdiv.
  pose proof (Z.mod_pos_bound a 1000000 ltac:(lia)) as Hr.
  set (q := a / 1000000) in *. set (r := a mod 1000000) in *.
  symmetry. apply (Z.div_unique m P q (m - P * q)); [|lia].
  left.
  assert (a * P = 1000000 * (q * P) + r * P) as HaP by (rewrite Hdiv; ring).
  assert (0 ≤ r * P) as Hy0 by nia.
  assert (r * P ≤ 999999 * P) as Hy1 by nia.
  assert (r = 0 ∨ P ≤ r * P) as [Hz|Hy2] by nia.
  - rewrite Hz in *. lia.
  - lia.
Qed.

Lemma int_total_seconds_exact (delta : Z) :
  Z.abs delta < 2 ^ 33 * 1000000 →
  int_total_seconds delta = Z.sgn delta * (Z.abs delta / 1000000).
Proof.
  intros Hlt. unfold int_total_seconds, int_true_div.
  destruct (delta =? 0) eqn:Hz.
  { apply Z.eqb_eq in Hz. by subst. }
  apply Z.eqb_neq in Hz.
  pose proof (float_exponent_small (Z.abs delta) ltac:(lia)) as He.
  set (e := float_exponent (Z.abs delta) 1000000) in *.
  destruct (0 <=? e) eqn:Hsign; [apply Z.leb_le in Hsign; lia|].
  f_equal. apply whole_of_nearest; [lia| |].
  - change 524288 with (2 ^ 19). apply Z.pow_le_mono_r; lia.
  - pose proof (round_half_even_near (Z.abs delta * 2 ^ (- e)) 1000000
                  ltac:(lia)) as Hnear.
    lia.
Qed.

Lemma int_total_seconds_quot (delta : Z) :
  Z.abs delta < 2 ^ 33 * 1000000 →
  int_total_seconds delta = Z.quot delta 1000000.
Proof.
  intros Hlt. rewrite int_total_seconds_exact by done.
  rewrite Z.quot_div by lia. change (Z.sgn 1000000) with 1.
  change (Z.abs 1000000) with 1000000. lia.
Qed.

Lemma int_total_seconds_nonneg (delta : Z) :
  0 ≤ delta → 0 ≤ int_total_seconds delta.
Proof.
  intros Hpos. unfold int_total_seconds, int_true_div.
  destruct (delta =? 0) eqn:Hz; [done|]. apply Z.eqb_neq in Hz.
  apply Z.mul_nonneg_nonneg; [lia|].
  destruct (0 <=? _) eqn:Hsign.
  - apply Z.leb_le in Hsign. apply Z.mul_nonneg_nonneg; [|by apply Z.pow_nonneg].
    apply round_half_even_nonneg; [lia|].
    apply Z.mul_pos_pos; [lia|]. by apply Z.pow_pos_nonneg.
  - apply Z.leb_gt in Hsign. apply Z.div_pos.
    + apply round_half_even_nonneg; [|lia].
      apply Z.mul_nonneg_nonneg; [lia|]. by apply Z.pow_nonneg.
    + apply Z.pow_pos_nonneg; lia.
Qed.

End SecondsOfDoubles.

(** Two and a half seconds in either direction, and a difference beyond
    2^34 seconds, where the double nearest to the quotient is the next whole
    number. *)
Example int_total_seconds_forward : int_total_seconds 2500000 = 2.
Proof. by vm_compute. Qed.

Example int_total_seconds_backward : int_total_seconds (- 2500000) = -2.
Proof. by vm_compute. Qed.

Example int_total_seconds_rounds_up_far_out :
  int_total_seconds (2 ^ 34 * 1000000 + 999999) = 2 ^ 34 + 1.
Proof. by vm_compute. Qed.

(** C5, as amended: the duration is 0 without an end time; otherwise, for an
    end less than 2^33 seconds away from the start, it is the difference
    between end and start in seconds rounded towards zero, which is the
    floor of that difference whenever the start is not after the end; it is
    not negative whenever the start is not after the end, however far apart
    they are.  The report response and the HTML report compute it alike, and
    an end 125 s after the start gives 125. *)
Theorem duration_seconds_spec :
  (∀ session, end_time session = None → Report.html_duration_seconds session = 0)
  ∧ (∀ session e, end_time session = Some e →
       Z.abs (e - start_time session) < 2 ^ 33 * 1000000 →
       Report.html_duration_seconds session
       = Z.sgn (e - start_time session) * (Z.abs (e - start_time session) / 1000000))
  ∧ (∀ session e, end_time session = Some e → start_time session ≤ e →
       0 ≤ Report.html_duration_seconds session
       ∧ (e - start_time session < 2 ^ 33 * 1000000 →
          Report.html_duration_seconds session = (e - start_time session) / 1000000))
  ∧ (∀ sid session_doc,
       Main.api_duration_seconds session_doc
       = Report.html_duration_seconds (Main.session_obj sid session_doc))
  ∧ (∀ sid name T video,
       Report.html_duration_seconds (mkSession sid name T (Some (T + 125 * 1000000)) video)
       = 125).
Proof.
  split; [|split; [|split; [|split]]].
  - intros session Hend. unfold Report.html_duration_seconds. by rewrite Hend.
  - intros session e Hend Hnear. unfold Report.html_duration_seconds. rewrite Hend.
    by apply int_total_seconds_exact.
  - intros session e Hend Hle. unfold Report.html_duration_seconds. rewrite Hend.
    split; [apply int_total_seconds_nonneg; lia|].
    intros Hnear. rewrite int_total_seconds_quot by lia.
    apply Z.quot_div_nonneg; lia.
  - intros sid d. reflexivity.
  - intros sid name T video. unfold Report.html_duration_seconds. simpl.
    replace (T + 125 * 1000000 - T) with 125000000 by lia.
    by vm_compute.
Qed.

Lemma duration_seconds_spec_witness :
  let session := mkSession (Some "s1") "Ada" 1000000 (Some 3500000) None in
  Report.html_duration_seconds session = 2
  ∧ 0 ≤ Report.html_duration_seconds session.
Proof.
  intros session.
  destruct duration_seconds_spec as (_ & _ & Hfloor & _).
  destruct (Hfloor session 3500000 eq_refl) as [Hpos Heq]; [simpl; lia|].
  split; [rewrite Heq; [reflexivity|simpl; lia]|exact Hpos].
Defined.

(** C5, as stated, fails when the end lies a fractional number of seconds
    before the start: from 1.5 s back to 0 s the code reports -1, the floor
    is -2. *)
Lemma duration_is_not_floor :
  let session := mkSession (Some "s1") "Ada" 1500000 (Some 0) None in
  Report.html_duration_seconds session = -1
  ∧ (0 - start_time session) / 1000000 = -2
  ∧ ¬ (∀ s e, end_time s = Some e →
         Report.html_duration_seconds s = (e - start_time s) / 1000000).
Proof.
  intros session. split; [by vm_compute|]. split; [reflexivity|].
  intros Hall. specialize (Hall session 0 eq_refl). by vm_compute in Hall.
Qed.

(** ** The report response *)

Lemma suspicious_total_unfold (counts : gmap string Z) :
  Main.suspicious_total counts
  = dict_get counts "multiple_faces" + dict_get counts "phone_detected"
    + dict_get counts "notes_detected" + dict_get counts "device_detected".
Proof. unfold Main.suspicious_total. simpl. lia. Qed.





(** ** The CSV report *)

(** C3: for every session, counts and score the CSV document is a header row
    followed by one data row of as many cells, holding the candidate name,
    the session id, the duration, the seven category counts, the suspicious
    total and the integrity score. *)
Theorem build_csv_report_content_rows (session : Session) (counts : gmap string Z)
    (score : Z) :
  ∃ header row,
    build_csv_report_content session counts score = [header; row]
    ∧ header = map Text csv_header
    ∧ length row = length header
    ∧ row = [ Text (candidate_name session); Text (default "" (id session));
              Number (Report.html_duration_seconds session);
              Number (dict_get counts "focus_lost");
              Number (dict_get counts "looking_away");
              Number (dict_get counts "no_face");
              Number (dict_get counts "multiple_faces");
              Number (dict_get counts "phone_detected");
              Number (dict_get counts "notes_detected");
              Number (dict_get counts "device_detected");
              Number (dict_get counts "multiple_faces" + dict_get counts "phone_detected"
                      + dict_get counts "notes_detected"
                      + dict_get counts "device_detected");
              Number score ].
Proof.
  eexists _, _. split; [reflexivity|]. split; [reflexivity|].
  split; [reflexivity|].
  by rewrite <-suspicious_total_unfold.
Qed.

(** ** Ending a session *)

Section EndSession.
Import Main.
Context {S : Type} `{Storage.BaseStorage S}.

Lemma ended_at_alter_video (st : State S) sid sid' t ref storage' :
  ended_at st sid t →
  ended_at (with_sessions (with_storage st storage')
              (alter (set_video_path ref) sid' (sessions_collection st))) sid t.
Proof.
  intros (d & Hd & Ht). unfold ended_at. simpl.
  destruct (decide (sid' = sid)) as [->|Hne].
  - exists (set_video_path ref d). by rewrite lookup_alter_eq, Hd.
  - exists d. by rewrite lookup_alter_ne.
Qed.

Lemma ended_at_stored (st : State S) sid t :
  ended_at st sid t ↔ stored_end_time st sid = Some (Some t).
Proof.
  unfold ended_at, stored_end_time. split.
  - by intros (d & -> & <-).
  - destruct (sessions_collection st !! sid) as [d|]; [|done].
    intros [= Ht]. by exists d.
Qed.

(** The update of a call for another session leaves the end time alone. *)
Lemma end_session_update_other (st : State S) sid sid' now t :
  sid' ≠ sid → ended_at st sid t → ended_at (end_session_update st sid' now) sid t.
Proof.
  intros Hne (d & Hd & Ht). exists d. split; [|done].
  unfold end_session_update. simpl. by rewrite lookup_alter_ne.
Qed.

(** No handler that runs without giving way moves an end time that is
    set. *)
Lemma handle_keeps_end_time (st : State S) (r : Request) sid t :
  ended_at st sid t → ended_at (handle st r) sid t.
Proof.
  intros Hend. pose proof Hend as (d & Hd & Ht).
  destruct r as [uuid now name| |sid'|sid' uuid now payload|sid' now
                |sid' suffix content ok|sid' suffix source ok|sid' html|sid' csv
                |name|name];
    simpl; try done.
  - unfold create_session.
    destruct (sessions_collection st !! uuid) eqn:Hu; simpl; [done|].
    exists d. split; [|done]. simpl. rewrite lookup_insert_ne; [done|].
    intros ->. congruence.
  - unfold log_event.
    destruct (sessions_collection st !! sid'); simpl; [|done].
    by destruct (events_collection st !! uuid).
  - unfold end_session, end_session_find.
    destruct (sessions_collection st !! sid') as [d'|] eqn:Hd'; simpl; [|done].
    destruct (doc_end_time d') eqn:Ht'; simpl; [done|].
    apply end_session_update_other; [|done]. intros ->. congruence.
  - unfold upload_video.
    destruct (sessions_collection st !! sid'); simpl; [|done].
    destruct (Storage.save_video_bytes _ _ _) as [[ref|] storage']; simpl; [|done].
    destruct ok; simpl; [|done]. by apply ended_at_alter_video.
  - unfold import_video.
    destruct (sessions_collection st !! sid'); simpl; [|done].
    destruct source as [content|]; simpl; [|done].
    destruct (Storage.save_video_bytes _ _ _) as [[ref|] storage']; simpl; [|done].
    destruct ok; simpl; [|done]. by apply ended_at_alter_video.
  - unfold get_report.
    destruct (sessions_collection st !! sid'); simpl; [|done].
    by destruct (Storage.save_report_bytes _ _ _ _) as [[ref|] storage'].
  - unfold download_report_csv.
    destruct (sessions_collection st !! sid'); simpl; [|done].
    by destruct (Storage.save_report_bytes _ _ _ _) as [[ref|] storage'].
Qed.

Lemma run_keeps_end_time (requests : list Request) (st : State S) sid t :
  ended_at st sid t → ended_at (fold_left handle requests st) sid t.
Proof.
  revert st. induction requests as [|r requests IH]; intros st Hend; simpl; [done|].
  by apply IH, handle_keeps_end_time.
Qed.

(** With the end time set and no call for the session in flight, a step of
    the server keeps both. *)
Lemma act_keeps_end_time (sv : Server S) (a : Action) sid t :
  ended_at (store sv) sid t →
  Forall (λ call, call.1 ≠ sid) (in_flight sv) →
  ended_at (store (act sv a)) sid t
  ∧ Forall (λ call, call.1 ≠ sid) (in_flight (act sv a)).
Proof.
  intros Hend Hnone. destruct a as [r|sid' now|i]; simpl.
  - split; [by apply handle_keeps_end_time|done].
  - unfold end_session_find.
    destruct (sessions_collection (store sv) !! sid') as [d'|] eqn:Hd'; [|done].
    destruct (doc_end_time d') eqn:Ht'; [done|]. simpl. split; [done|].
    apply Forall_app. split; [done|]. apply Forall_singleton. simpl.
    intros ->. destruct Hend as (d & Hd & Ht). congruence.
  - destruct (in_flight sv !! i) as [call|] eqn:Hcall; [|done]. simpl.
    split.
    + apply end_session_update_other; [|done].
      by apply (Forall_lookup_1 _ _ _ _ Hnone Hcall).
    + by apply Forall_delete.
Qed.

Lemma acts_keep_end_time (actions : list Action) (sv : Server S) sid t :
  ended_at (store sv) sid t →
  Forall (λ call, call.1 ≠ sid) (in_flight sv) →
  ended_at (store (fold_left act actions sv)) sid t.
Proof.
  revert sv. induction actions as [|a actions IH]; intros sv Hend Hnone; simpl.
  { done. }
  destruct (act_keeps_end_time sv a sid t Hend Hnone) as [Hend' Hnone'].
  by apply IH.
Qed.

(** The handler is its two awaits with nothing in between. *)
Lemma end_session_in_two_steps (sv : Server S) sid now :
  let found := act sv (EndSessionFind sid now) in
  let written := act found (EndSessionUpdate (length (in_flight sv))) in
  store (if decide (in_flight found = in_flight sv) then found else written)
  = handle (store sv) (EndSession sid now).
Proof.
  simpl. unfold end_session, end_session_find.
  destruct (sessions_collection (store sv) !! sid) as [d|] eqn:Hd.
  - destruct (doc_end_time d) eqn:Ht; simpl.
    + by rewrite decide_True.
    + rewrite decide_False.
      * by rewrite lookup_app_r, Nat.sub_diag by done.
      * intros Heq. apply (f_equal length) in Heq.
        rewrite length_app in Heq. simpl in Heq. lia.
  - by rewrite decide_True.
Qed.

Lemma end_session_absent (st : State S) sid now :
  sessions_collection st !! sid = None →
  end_session st sid now = (HTTPException 404 "Session not found", st).
Proof. intros Hs. unfold end_session, end_session_find. by rewrite Hs. Qed.

Lemma end_session_unset (st : State S) sid now d :
  sessions_collection st !! sid = Some d → doc_end_time d = None →
  end_session st sid now
  = (Ok (session_response sid (set_end_time now d)),
     with_sessions st
       (<[sid := set_end_time (bson_datetime now) d]> (sessions_collection st))).
Proof.
  intros Hs Ht. unfold end_session, end_session_find, end_session_update.
  rewrite Hs, Ht. do 2 f_equal.
  apply map_eq. intros k. destruct (decide (sid = k)) as [<-|Hne].
  - by rewrite lookup_alter_eq, lookup_insert_eq, Hs.
  - by rewrite lookup_alter_ne, lookup_insert_ne.
Qed.

Lemma end_session_set (st : State S) sid now d t :
  sessions_collection st !! sid = Some d → doc_end_time d = Some t →
  end_session st sid now = (Ok (session_response sid d), st).
Proof. intros Hs Ht. unfold end_session, end_session_find. by rewrite Hs, Ht. Qed.

End EndSession.

(** C8, as amended: [end_session] answers 404 and leaves the store as it is
    when the session does not exist.  When the session has no end time, the
    call answers with its own time and the store then holds that time, cut
    to milliseconds, as the end time of this session, all else as before.
    When an end time is set, the call changes nothing and answers with the
    stored end time; so a repeated call leaves the store as the first call
    left it and answers with what is stored.  Once an end time is set and
    no call for that session is in flight between its two awaits, no
    sequence of steps of the server changes it: not a later call of
    [end_session], not any other request. *)
Theorem end_session_sets_end_time_once {S : Type} `{Storage.BaseStorage S}
    (st : Main.State S) (sid : string) (now : Z) :
  (Main.sessions_collection st !! sid = None →
     Main.end_session st sid now = (Main.HTTPException 404 "Session not found", st))
  ∧ (∀ d, Main.sessions_collection st !! sid = Some d → Main.doc_end_time d = None →
       ∃ resp st',
         Main.end_session st sid now = (Main.Ok resp, st')
         ∧ resp_id resp = sid ∧ resp_end_time resp = Some now
         ∧ Main.sessions_collection st'
           = <[sid := Main.mkSessionDoc (Main.doc_candidate_name d)
                        (Main.doc_start_time d) (Some (bson_datetime now))
                        (Main.doc_video_path d)]> (Main.sessions_collection st)
         ∧ Main.events_collection st' = Main.events_collection st
         ∧ Main.storage st' = Main.storage st)
  ∧ (∀ d t, Main.sessions_collection st !! sid = Some d →
       Main.doc_end_time d = Some t →
       ∃ resp, Main.end_session st sid now = (Main.Ok resp, st)
               ∧ resp_id resp = sid ∧ resp_end_time resp = Some t)
  ∧ (∀ now',
       let st1 := (Main.end_session st sid now).2 in
       (Main.end_session st1 sid now').2 = st1
       ∧ ∀ resp, (Main.end_session st1 sid now').1 = Main.Ok resp →
           Main.stored_end_time st1 sid = Some (resp_end_time resp)
           ∧ ∃ t, resp_end_time resp = Some t)
  ∧ (∀ (sv : Main.Server S) t actions,
       Main.stored_end_time (Main.store sv) sid = Some (Some t) →
       Forall (λ call, call.1 ≠ sid) (Main.in_flight sv) →
       Main.stored_end_time (Main.store (fold_left Main.act actions sv)) sid
       = Some (Some t)).
Proof.
  split; [|split; [|split; [|split]]].
  - apply end_session_absent.
  - intros d Hs Ht. rewrite (end_session_unset st sid now d Hs Ht).
    eexists _, _. split; [reflexivity|]. by destruct d.
  - intros d t Hs Ht. rewrite (end_session_set st sid now d t Hs Ht).
    eexists. split; [reflexivity|]. by split.
  - intros now' st1. subst st1.
    destruct (Main.sessions_collection st !! sid) as [d|] eqn:Hs.
    + destruct (Main.doc_end_time d) as [t|] eqn:Ht.
      * rewrite (end_session_set st sid now d t Hs Ht). simpl.
        rewrite (end_session_set st sid now' d t Hs Ht). simpl.
        split; [done|]. intros resp [= <-]. simpl.
        unfold Main.stored_end_time. rewrite Hs. simpl. rewrite Ht. eauto.
      * rewrite (end_session_unset st sid now d Hs Ht). simpl.
        rewrite (end_session_set _ sid now'
                   (Main.set_end_time (bson_datetime now) d) (bson_datetime now));
          [|simpl; apply lookup_insert_eq|reflexivity].
        simpl. split; [done|]. intros resp [= <-]. simpl.
        unfold Main.stored_end_time. simpl. rewrite lookup_insert_eq. eauto.
    + rewrite (end_session_absent st sid now Hs). simpl.
      rewrite (end_session_absent st sid now' Hs). simpl. by split.
  - intros sv t actions Hend Hnone.
    apply ended_at_stored, acts_keep_end_time; [|done]. by apply ended_at_stored.
Qed.

Lemma end_session_sets_end_time_once_witness :
  let H := Storage.permissive in
  let sv := Main.mkServer (Main.end_session one_open_session "s1" 50999).2 [] in
  Main.stored_end_time (Main.store sv) "s1" = Some (Some 50000)
  ∧ Main.stored_end_time
      (Main.store
         (fold_left Main.act
            [Main.EndSessionFind "s1" 99000; Main.EndSessionUpdate 0;
             Main.Serve (Main.EndSession "s1" 70000);
             Main.Serve (Main.CreateSession "s1" 120000 "Bob");
             Main.Serve (Main.UploadVideo "s1" ".webm" [Byte.x01] true)] sv)) "s1"
    = Some (Some 50000).
Proof.
  intros P sv.
  assert (Hend : Main.stored_end_time (Main.store sv) "s1" = Some (Some 50000))
    by reflexivity.
  split; [exact Hend|].
  destruct (end_session_sets_end_time_once (Main.store sv) "s1" 0)
    as (_ & _ & _ & _ & Hkeep).
  apply (Hkeep sv); [exact Hend|constructor].
Defined.

(** C8, as stated, fails when two calls for one session alternate: both read
    the session before either writes, the first write sets the end time, and
    the second, which asks for no condition, replaces it. *)
Lemma end_session_race_overwrites :
  let H := Storage.permissive in
  let sv := Main.mkServer one_open_session [] in
  let both_read := [Main.EndSessionFind "s1" 50000; Main.EndSessionFind "s1" 90000] in
  Main.stored_end_time
    (Main.store (fold_left Main.act (both_read ++ [Main.EndSessionUpdate 0]) sv)) "s1"
  = Some (Some 50000)
  ∧ Main.stored_end_time
      (Main.store
         (fold_left Main.act
            (both_read ++ [Main.EndSessionUpdate 0; Main.EndSessionUpdate 0]) sv)) "s1"
    = Some (Some 90000)
  ∧ ¬ (∀ (sv' : Main.Server Storage.DetaStorage) sid t a,
         Main.stored_end_time (Main.store sv') sid = Some (Some t) →
         Main.stored_end_time (Main.store (Main.act sv' a)) sid = Some (Some t)).
Proof.
  intros P sv both_read. split; [reflexivity|]. split; [reflexivity|].
  intros Hnever.
  specialize (Hnever
    (fold_left Main.act (both_read ++ [Main.EndSessionUpdate 0]) sv)
    "s1" 50000 (Main.EndSessionUpdate 0) eq_refl).
  by vm_compute in Hnever.
Qed.

(** * Further properties of the code *)

(** ** Summaries and scores of event logs *)

Section LogAlgebra.

Lemma dict_get_summary (events : list Event) (k : string) :
  dict_get (Report.summarize_events events) k
  = if decide (k ∈ CATEGORIES) then occurrences k events else 0.
Proof.
  unfold dict_get. rewrite summarize_events_lookup. by case_decide.
Qed.

Lemma occurrences_nonneg k events : 0 ≤ occurrences k events.
Proof. unfold occurrences. lia. Qed.

Lemma occurrences_app k (a b : list Event) :
  occurrences k (a ++ b) = occurrences k a + occurrences k b.
Proof. unfold occurrences. rewrite filter_app, length_app. lia. Qed.

Lemma occurrences_cons k e (events : list Event) :
  occurrences k (e :: events)
  = (if decide (event_type e = k) then 1 else 0) + occurrences k events.
Proof.
  unfold occurrences. case_decide.
  - rewrite filter_cons_True by done. simpl. lia.
  - rewrite filter_cons_False by done. lia.
Qed.

Lemma recognised_cons e (events : list Event) :
  recognised (e :: events)
  = (if decide (event_type e ∈ CATEGORIES) then 1 else 0) + recognised events.
Proof.
  unfold recognised. case_decide.
  - rewrite filter_cons_True by done. simpl. lia.
  - rewrite filter_cons_False by done. lia.
Qed.

(** The recognised events are those of the seven tags, each counted once. *)
Lemma recognised_by_tag (events : list Event) :
  recognised events
  = occurrences "focus_lost" events + occurrences "looking_away" events
    + occurrences "no_face" events + occurrences "multiple_faces" events
    + occurrences "phone_detected" events + occurrences "notes_detected" events
    + occurrences "device_detected" events.
Proof.
  induction events as [|e events IH].
  { reflexivity. }
  rewrite recognised_cons, !occurrences_cons, IH.
  destruct (decide (event_type e ∈ CATEGORIES)) as [Hin|Hout].
  - unfold CATEGORIES in Hin.
    repeat (apply elem_of_cons in Hin as [->|Hin]);
      [..|by apply elem_of_nil in Hin];
      repeat case_decide; first [done | lia].
  - repeat case_decide; try lia;
      exfalso; apply Hout;
      match goal with Heq : event_type e = _ |- _ => rewrite Heq end;
      by repeat constructor.
Qed.

Lemma weighted_penalty_summary (events : list Event) :
  weighted_penalty (Report.summarize_events events)
  = occurrences "focus_lost" events * 2 + occurrences "looking_away" events * 2
    + occurrences "no_face" events * 5 + occurrences "multiple_faces" events * 10
    + occurrences "phone_detected" events * 10
    + occurrences "notes_detected" events * 5
    + occurrences "device_detected" events * 8.
Proof. unfold weighted_penalty. by rewrite !dict_get_summary. Qed.

Lemma score_unfold (counts : gmap string Z) :
  Report.compute_integrity_score counts = Z.max 0 (100 - weighted_penalty counts).
Proof. unfold Report.compute_integrity_score. by rewrite fold_penalise. Qed.

Lemma summary_order_free (a b : list Event) :
  a ≡ₚ b → Report.summarize_events a = Report.summarize_events b.
Proof.
  intros Hperm. apply map_eq. intros k. rewrite !summarize_events_lookup.
  case_decide; [|done]. unfold occurrences. by rewrite Hperm.
Qed.

Lemma occurrences_filter_recognised k (events : list Event) :
  k ∈ CATEGORIES →
  occurrences k (filter (λ e, event_type e ∈ CATEGORIES) events)
  = occurrences k events.
Proof.
  intros Hk. induction events as [|e events IH]; [done|].
  destruct (decide (event_type e ∈ CATEGORIES)) as [Hin|Hout].
  - rewrite filter_cons_True by done. by rewrite !occurrences_cons, IH.
  - rewrite filter_cons_False by done. rewrite occurrences_cons, IH.
    case_decide as Heq; [|lia]. by rewrite Heq in Hout.
Qed.

End LogAlgebra.

(** Summaries add up: the count of every key in the summary of two logs put
    end to end is the sum of its counts in the two summaries. *)
Theorem summarize_events_app (a b : list Event) (k : string) :
  dict_get (Report.summarize_events (a ++ b)) k
  = dict_get (Report.summarize_events a) k + dict_get (Report.summarize_events b) k.
Proof.
  rewrite !dict_get_summary. case_decide; [apply occurrences_app|lia].
Qed.

(** Events whose type is none of the seven tags, the empty type included,
    leave no trace: dropping them from the log gives the same summary. *)
Theorem summarize_events_drops_unrecognised (events : list Event) :
  Report.summarize_events (filter (λ e, event_type e ∈ CATEGORIES) events)
  = Report.summarize_events events.
Proof.
  apply map_eq. intros k. rewrite !summarize_events_lookup.
  case_decide; [|done]. by rewrite occurrences_filter_recognised.
Qed.

(** The score of a log with [n] recognised events lies between
    [max(0, 100 - 10 n)] and [max(0, 100 - 2 n)]: it is 100 exactly when no
    event is recognised, and 0 from fifty recognised events on. *)
Theorem score_bounds_by_recognised (events : list Event) :
  let score := Report.compute_integrity_score (Report.summarize_events events) in
  Z.max 0 (100 - 10 * recognised events) ≤ score
  ∧ score ≤ Z.max 0 (100 - 2 * recognised events)
  ∧ (score = 100 ↔ recognised events = 0)
  ∧ (50 ≤ recognised events → score = 0).
Proof.
  intros score. subst score.
  rewrite score_unfold, weighted_penalty_summary, recognised_by_tag.
  pose proof (occurrences_nonneg "focus_lost" events).
  pose proof (occurrences_nonneg "looking_away" events).
  pose proof (occurrences_nonneg "no_face" events).
  pose proof (occurrences_nonneg "multiple_faces" events).
  pose proof (occurrences_nonneg "phone_detected" events).
  pose proof (occurrences_nonneg "notes_detected" events).
  pose proof (occurrences_nonneg "device_detected" events).
  lia.
Qed.

Lemma score_bounds_by_recognised_witness :
  let events := repeat (mkEvent None "s1" "focus_lost" None 0) 50 in
  50 ≤ recognised events
  ∧ Report.compute_integrity_score (Report.summarize_events events) = 0.
Proof.
  intros events.
  assert (Hn : 50 ≤ recognised events) by (by vm_compute).
  split; [exact Hn|].
  destruct (score_bounds_by_recognised events) as (_ & _ & _ & Hzero).
  exact (Hzero Hn).
Defined.

(** Logging more never raises the score: the score of a log extended by
    further events is at most the score of the log. *)
Theorem score_antitone_in_log (events more : list Event) :
  Report.compute_integrity_score (Report.summarize_events (events ++ more))
  ≤ Report.compute_integrity_score (Report.summarize_events events).
Proof.
  rewrite !score_unfold, !weighted_penalty_summary, !occurrences_app.
  pose proof (occurrences_nonneg "focus_lost" more).
  pose proof (occurrences_nonneg "looking_away" more).
  pose proof (occurrences_nonneg "no_face" more).
  pose proof (occurrences_nonneg "multiple_faces" more).
  pose proof (occurrences_nonneg "phone_detected" more).
  pose proof (occurrences_nonneg "notes_detected" more).
  pose proof (occurrences_nonneg "device_detected" more).
  lia.
Qed.

(** A key outside the weight table weighs nothing: writing any count under
    it leaves the score as it was. *)
Theorem score_ignores_unknown_key (counts : gmap string Z) (k : string) (v : Z) :
  k ∉ CATEGORIES →
  Report.compute_integrity_score (<[k := v]> counts)
  = Report.compute_integrity_score counts.
Proof.
  intros Hk. rewrite !score_unfold, weighted_penalty_insert, weights_outside by done.
  f_equal. lia.
Qed.

Lemma score_ignores_unknown_key_witness :
  ("yawning" ∉ CATEGORIES)
  ∧ Report.compute_integrity_score (<["yawning" := 40]> Report.zero_counts)
    = Report.compute_integrity_score Report.zero_counts.
Proof.
  assert (Hk : "yawning" ∉ CATEGORIES).
  { by intros Hin%list_elem_of_In; simpl in Hin; intuition. }
  split; [exact Hk|]. exact (score_ignores_unknown_key _ _ _ Hk).
Defined.

Lemma weights_pos (k : string) :
  k ∈ CATEGORIES → 2 ≤ dict_get Report.EVENT_WEIGHTS k ≤ 10.
Proof.
  intros Hin. unfold CATEGORIES in Hin.
  repeat (apply elem_of_cons in Hin as [->|Hin]);
    [..|by apply elem_of_nil in Hin]; by vm_compute.
Qed.

(** The score is clamped from below only: it exceeds 100 exactly when the
    weighted penalty of the counts is negative, which one negative count
    among zeros already brings about. *)
Theorem score_has_no_upper_clamp :
  (∀ counts : gmap string Z,
     100 < Report.compute_integrity_score counts ↔ weighted_penalty counts < 0)
  ∧ (∀ k v, k ∈ CATEGORIES → v < 0 →
       100 < Report.compute_integrity_score (<[k := v]> Report.zero_counts)).
Proof.
  split.
  - intros counts. rewrite score_unfold. lia.
  - intros k v Hk Hv. rewrite score_unfold, weighted_penalty_insert.
    pose proof (weights_pos k Hk) as Hw.
    assert (dict_get Report.zero_counts k = 0) as ->.
    { unfold dict_get. rewrite zero_counts_lookup. by case_decide. }
    change (weighted_penalty Report.zero_counts) with 0. nia.
Qed.

Lemma score_has_no_upper_clamp_witness :
  Report.compute_integrity_score (<["focus_lost" := -1]> Report.zero_counts) = 102
  ∧ 100 < Report.compute_integrity_score (<["focus_lost" := -1]> Report.zero_counts).
Proof.
  split; [by vm_compute|].
  apply (proj2 score_has_no_upper_clamp "focus_lost" (-1)); [by repeat constructor|lia].
Defined.

(** Whatever the events, the report response is in range: its seven counts
    add up to the number of recognised events, the suspicious total lies
    between 0 and that number, which is at most the length of the log, and
    the integrity score lies between 0 and 100. *)
Theorem report_response_in_range (sid : string) (session_doc : Main.SessionDoc)
    (events : list Event) :
  let r := Main.report_response sid session_doc events in
  focus_lost_count r + looking_away_count r + no_face_segments r
    + multiple_faces_count r + phone_detected_count r + notes_detected_count r
    + device_detected_count r = recognised events
  ∧ 0 ≤ suspicious_events_count r ≤ recognised events
  ∧ recognised events ≤ Z.of_nat (length events)
  ∧ 0 ≤ integrity_score r ≤ 100.
Proof.
  intros r. subst r. simpl.
  rewrite suspicious_total_unfold, score_unfold, weighted_penalty_summary.
  rewrite !dict_get_summary, recognised_by_tag.
  repeat (case_decide as Hc;
          [clear Hc|exfalso; apply Hc; by repeat constructor]).
  pose proof (occurrences_nonneg "focus_lost" events).
  pose proof (occurrences_nonneg "looking_away" events).
  pose proof (occurrences_nonneg "no_face" events).
  pose proof (occurrences_nonneg "multiple_faces" events).
  pose proof (occurrences_nonneg "phone_detected" events).
  pose proof (occurrences_nonneg "notes_detected" events).
  pose proof (occurrences_nonneg "device_detected" events).
  assert (recognised events ≤ Z.of_nat (length events)) as Hlen.
  { unfold recognised.
    pose proof (length_filter (λ e, event_type e ∈ CATEGORIES) events). lia. }
  rewrite recognised_by_tag in Hlen. lia.
Qed.

(** ** Storage: what a save leaves alone *)

(** Two paths to one file: a video key that climbs out of the video
    directory replaces the report that [open_bytes] reads under its bare
    name. *)
Example local_save_through_dotdot :
  let H := Storage.permissive in
  let self := Storage.mkLocalStorage "data/videos" "data/reports"
                {["data/reports/old.html" := [Byte.x07]]} in
  ∃ self',
    Storage.save_video_bytes self "../reports/old.html" [Byte.x01]
    = (Some "data/videos/../reports/old.html", self')
    ∧ Storage.open_bytes self "old.html" = Some [Byte.x07]
    ∧ Storage.open_bytes self' "old.html" = Some [Byte.x01].
Proof. intros P self. eexists. split; [reflexivity|]. by split. Qed.





(** On the Deta backend the two buckets do not mix: saving a video changes
    no read of a [reports/] key nor of a key without a slash (so the video
    is not found under its bare name), and saving a report changes no read
    of a [videos/] key. *)
Theorem deta_buckets_are_separate `{Storage.Platform}
    (self self' : Storage.DetaStorage) (key ref : string) (data : Storage.bytes) :
  (Storage.save_video_bytes self key data = (Some ref, self') →
     (∀ name, Storage.open_bytes self' ("reports/" ++ name)%string
              = Storage.open_bytes self ("reports/" ++ name)%string)
     ∧ (∀ bare, Storage.str_contains "/" bare = false →
          Storage.open_bytes self' bare = Storage.open_bytes self bare))
  ∧ (∀ content_type,
       Storage.save_report_bytes self key data content_type = (Some ref, self') →
       ∀ name, Storage.open_bytes self' ("videos/" ++ name)%string
               = Storage.open_bytes self ("videos/" ++ name)%string).
Proof.
  split.
  - intros [_ ->]%deta_save_video_returns.
    split; [done|]. intros bare Hb. simpl. unfold Storage.deta_open_bytes.
    by rewrite Hb.
  - intros ct Hsave.
    by apply (deta_save_report_returns _ _ _ _ ct) in Hsave as [_ ->].
Qed.

Lemma deta_buckets_are_separate_witness :
  let H := Storage.permissive in
  ∃ ref self',
    Storage.save_video_bytes fresh_deta "clip" [Byte.x01] = (Some ref, self')
    ∧ Storage.open_bytes self' "clip" = None
    ∧ Storage.open_bytes self' "videos/clip" = Some [Byte.x01].
Proof.
  intros P.
  exists "videos/clip", (Storage.mkDetaStorage {["clip" := [Byte.x01]]} ∅).
  split; [reflexivity|].
  destruct (@deta_buckets_are_separate P fresh_deta
              (Storage.mkDetaStorage {["clip" := [Byte.x01]]} ∅)
              "clip" "videos/clip" [Byte.x01])
    as [Hvideo _].
  destruct (Hvideo eq_refl) as [_ Hbare].
  split; [|reflexivity]. rewrite Hbare; reflexivity.
Defined.

(** ** The handlers and the store *)

Section StoreInvariants.
Import Main.
Context {S : Type} `{Storage.BaseStorage S}.

Lemma handle_keeps_session (st : State S) (r : Request) sid d :
  sessions_collection st !! sid = Some d →
  ∃ d', sessions_collection (handle st r) !! sid = Some d'
        ∧ doc_candidate_name d' = doc_candidate_name d
        ∧ doc_start_time d' = doc_start_time d.
Proof.
  intros Hd.
  assert (Hvideo : ∀ ref sid' storage',
    ∃ d', sessions_collection
            (with_sessions (with_storage st storage')
               (alter (set_video_path ref) sid' (sessions_collection st))) !! sid
          = Some d'
          ∧ doc_candidate_name d' = doc_candidate_name d
          ∧ doc_start_time d' = doc_start_time d).
  { intros ref sid' storage'. simpl. destruct (decide (sid' = sid)) as [->|Hne].
    - exists (set_video_path ref d). by rewrite lookup_alter_eq, Hd.
    - exists d. by rewrite lookup_alter_ne. }
  destruct r as [uuid now name| |sid'|sid' uuid now payload|sid' now
                |sid' suffix content ok|sid' suffix source ok|sid' html|sid' csv
                |name|name];
    simpl; try (by exists d).
  - unfold create_session.
    destruct (sessions_collection st !! uuid) eqn:Hu; simpl; [by exists d|].
    exists d. split; [|done]. rewrite lookup_insert_ne; [done|].
    intros ->. congruence.
  - unfold log_event.
    destruct (sessions_collection st !! sid'); simpl; [|by exists d].
    destruct (events_collection st !! uuid); by exists d.
  - unfold end_session, end_session_find, end_session_update.
    destruct (sessions_collection st !! sid') as [d'|] eqn:Hd'; simpl; [|by exists d].
    destruct (doc_end_time d') eqn:Ht'; simpl; [by exists d|].
    destruct (decide (sid' = sid)) as [->|Hne].
    + exists (set_end_time (bson_datetime now) d). by rewrite lookup_alter_eq, Hd.
    + exists d. by rewrite lookup_alter_ne.
  - unfold upload_video.
    destruct (sessions_collection st !! sid'); simpl; [|by exists d].
    destruct (Storage.save_video_bytes _ _ _) as [[ref|] storage']; simpl;
      [|by exists d].
    destruct ok; simpl; [apply (Hvideo ref sid' storage')|by exists d].
  - unfold import_video.
    destruct (sessions_collection st !! sid'); simpl; [|by exists d].
    destruct source as [content|]; simpl; [|by exists d].
    destruct (Storage.save_video_bytes _ _ _) as [[ref|] storage']; simpl;
      [|by exists d].
    destruct ok; simpl; [apply (Hvideo ref sid' storage')|by exists d].
  - unfold get_report.
    destruct (sessions_collection st !! sid'); simpl; [|by exists d].
    destruct (Storage.save_report_bytes _ _ _ _) as [[ref|] storage']; by exists d.
  - unfold download_report_csv.
    destruct (sessions_collection st !! sid'); simpl; [|by exists d].
    destruct (Storage.save_report_bytes _ _ _ _) as [[ref|] storage']; by exists d.
Qed.

Lemma handle_keeps_event (st : State S) (r : Request) k e :
  events_collection st !! k = Some e →
  events_collection (handle st r) !! k = Some e.
Proof.
  intros He.
  destruct r as [uuid now name| |sid'|sid' uuid now payload|sid' now
                |sid' suffix content ok|sid' suffix source ok|sid' html|sid' csv
                |name|name];
    simpl; try done.
  - unfold create_session. by destruct (sessions_collection st !! uuid).
  - unfold log_event.
    destruct (sessions_collection st !! sid'); simpl; [|done].
    destruct (events_collection st !! uuid) eqn:Hu; simpl; [done|].
    rewrite lookup_insert_ne; [done|]. intros ->. congruence.
  - unfold end_session, end_session_find.
    destruct (sessions_collection st !! sid') as [d'|]; simpl; [|done].
    by destruct (doc_end_time d').
  - unfold upload_video.
    destruct (sessions_collection st !! sid'); simpl; [|done].
    by destruct (Storage.save_video_bytes _ _ _) as [[ref|] storage'], ok.
  - unfold import_video.
    destruct (sessions_collection st !! sid'); simpl; [|done].
    destruct source as [content|]; simpl; [|done].
    by destruct (Storage.save_video_bytes _ _ _) as [[ref|] storage'], ok.
  - unfold get_report.
    destruct (sessions_collection st !! sid'); simpl; [|done].
    by destruct (Storage.save_report_bytes _ _ _ _) as [[ref|] storage'].
  - unfold download_report_csv.
    destruct (sessions_collection st !! sid'); simpl; [|done].
    by destruct (Storage.save_report_bytes _ _ _ _) as [[ref|] storage'].
Qed.

Lemma run_keeps_session (requests : list Request) (st : State S) sid d :
  sessions_collection st !! sid = Some d →
  ∃ d', sessions_collection (fold_left handle requests st) !! sid = Some d'
        ∧ doc_candidate_name d' = doc_candidate_name d
        ∧ doc_start_time d' = doc_start_time d.
Proof.
  revert st d. induction requests as [|r requests IH]; intros st d Hd; simpl.
  { by exists d. }
  destruct (handle_keeps_session st r sid d Hd) as (d1 & Hd1 & Hn1 & Hs1).
  destruct (IH _ _ Hd1) as (d2 & Hd2 & Hn2 & Hs2).
  exists d2. split; [done|]. split; congruence.
Qed.

End StoreInvariants.

(** No request deletes a session or rewrites who it belongs to and when it
    started: after any sequence of requests a stored session is still stored
    under its id with the same candidate name and start time. *)
Theorem sessions_are_never_lost {S : Type} `{Storage.BaseStorage S}
    (requests : list Main.Request) (st : Main.State S) (sid : string)
    (d : Main.SessionDoc) :
  Main.sessions_collection st !! sid = Some d →
  ∃ d', Main.sessions_collection (fold_left Main.handle requests st) !! sid = Some d'
        ∧ Main.doc_candidate_name d' = Main.doc_candidate_name d
        ∧ Main.doc_start_time d' = Main.doc_start_time d.
Proof. apply run_keeps_session. Qed.

Lemma sessions_are_never_lost_witness :
  let H := Storage.permissive in
  ∃ d', Main.sessions_collection
          (fold_left Main.handle
             [Main.CreateSession "s1" 99000 "Eve"; Main.EndSession "s1" 70000;
              Main.UploadVideo "s1" ".webm" [Byte.x01] true] one_open_session) !! "s1"
        = Some d'
        ∧ Main.doc_candidate_name d' = "Ada" ∧ Main.doc_start_time d' = 10000.
Proof.
  intros P.
  apply (sessions_are_never_lost _ one_open_session "s1"
           (Main.mkSessionDoc "Ada" 10000 None None)).
  reflexivity.
Defined.

(** A logged event is never changed or removed: after any sequence of
    requests it is still stored, as it was, under its id. *)
Theorem events_are_immutable {S : Type} `{Storage.BaseStorage S}
    (requests : list Main.Request) (st : Main.State S) (k : string) (e : Event) :
  Main.events_collection st !! k = Some e →
  Main.events_collection (fold_left Main.handle requests st) !! k = Some e.
Proof.
  revert st. induction requests as [|r requests IH]; intros st He; simpl; [done|].
  by apply IH, handle_keeps_event.
Qed.

Lemma events_are_immutable_witness :
  let H := Storage.permissive in
  let e := mkEvent (Some "e1") "s1" "no_face" None 20000 in
  let st := snd (Main.log_event one_open_session "s1" "e1" 20750
                   (mkLogEventRequest "no_face" None None)) in
  Main.events_collection
    (fold_left Main.handle
       [Main.LogEvent "s1" "e1" 30000 (mkLogEventRequest "phone_detected" None None);
        Main.EndSession "s1" 40000] st) !! "e1" = Some e.
Proof.
  intros P e st. apply (events_are_immutable _ st "e1" e). reflexivity.
Defined.

(** A request that fails leaves the two collections as they were: whenever
    a handler answers with an [HTTPException] or raises, no session and no
    event is added or changed.  [create_session], [log_event] and
    [end_session] then leave the storage alone as well; the other four can
    fail after their save, with the blob written. *)
Theorem failed_request_keeps_collections {S : Type} `{Storage.BaseStorage S}
    (st : Main.State S) :
  (∀ uuid now name,
     Main.is_ok (Main.create_session st uuid now name).1 = false →
     (Main.create_session st uuid now name).2 = st)
  ∧ (∀ sid uuid now payload,
       Main.is_ok (Main.log_event st sid uuid now payload).1 = false →
       (Main.log_event st sid uuid now payload).2 = st)
  ∧ (∀ sid now,
       Main.is_ok (Main.end_session st sid now).1 = false →
       (Main.end_session st sid now).2 = st)
  ∧ (∀ sid suffix content ok,
       let after := Main.upload_video st sid suffix content ok in
       Main.is_ok after.1 = false →
       Main.sessions_collection after.2 = Main.sessions_collection st
       ∧ Main.events_collection after.2 = Main.events_collection st)
  ∧ (∀ sid suffix source ok,
       let after := Main.import_video st sid suffix source ok in
       Main.is_ok after.1 = false →
       Main.sessions_collection after.2 = Main.sessions_collection st
       ∧ Main.events_collection after.2 = Main.events_collection st)
  ∧ (∀ sid html,
       let after := Main.get_report st sid html in
       Main.is_ok after.1 = false →
       Main.sessions_collection after.2 = Main.sessions_collection st
       ∧ Main.events_collection after.2 = Main.events_collection st)
  ∧ (∀ sid csv,
       let after := Main.download_report_csv st sid csv in
       Main.is_ok after.1 = false →
       Main.sessions_collection after.2 = Main.sessions_collection st
       ∧ Main.events_collection after.2 = Main.events_collection st).
Proof.
  repeat apply conj.
  - intros uuid now name. unfold Main.create_session.
    by destruct (Main.sessions_collection st !! uuid).
  - intros sid uuid now payload. unfold Main.log_event.
    destruct (Main.sessions_collection st !! sid); [|done].
    by destruct (Main.events_collection st !! uuid).
  - intros sid now. unfold Main.end_session, Main.end_session_find.
    destruct (Main.sessions_collection st !! sid) as [d|]; [|done].
    by destruct (Main.doc_end_time d).
  - intros sid suffix content ok after. subst after. unfold Main.upload_video.
    destruct (Main.sessions_collection st !! sid); [|done].
    by destruct (Storage.save_video_bytes _ _ _) as [[ref|] storage'], ok.
  - intros sid suffix source ok after. subst after. unfold Main.import_video.
    destruct (Main.sessions_collection st !! sid); [|done].
    destruct source; [|done].
    by destruct (Storage.save_video_bytes _ _ _) as [[ref|] storage'], ok.
  - intros sid html after. subst after. unfold Main.get_report.
    destruct (Main.sessions_collection st !! sid); [|done].
    by destruct (Storage.save_report_bytes _ _ _ _) as [[ref|] storage'].
  - intros sid csv after. subst after. unfold Main.download_report_csv.
    destruct (Main.sessions_collection st !! sid); [|done].
    by destruct (Storage.save_report_bytes _ _ _ _) as [[ref|] storage'].
Qed.

Lemma failed_request_keeps_collections_witness :
  let H := Storage.permissive in
  let after := Main.upload_video one_open_session "s1" ".webm" [Byte.x01] false in
  Main.is_ok after.1 = false
  ∧ Main.sessions_collection after.2 = Main.sessions_collection one_open_session
  ∧ Storage.open_bytes (Main.storage after.2) "videos/s1.webm" = Some [Byte.x01]
  ∧ (Main.create_session one_open_session "s1" 99000 "Eve").2 = one_open_session.
Proof.
  intros P after.
  destruct (failed_request_keeps_collections one_open_session)
    as (Hcreate & _ & _ & Hupload & _).
  split; [reflexivity|]. split; [|split].
  - apply (Hupload "s1" ".webm" [Byte.x01] false). reflexivity.
  - reflexivity.
  - apply Hcreate. reflexivity.
Defined.

(** ** From a logged event to the next report *)

Section LoggedEvents.
Import Main.
Context {S : Type} `{Storage.BaseStorage S}.

Lemma find_events_insert (st : State S) uuid (ev : Event) sid :
  events_collection st !! uuid = None →
  find_events (with_events st (<[uuid := ev]> (events_collection st))) sid
  ≡ₚ (if decide (session_id ev = sid) then [ev] else []) ++ find_events st sid.
Proof.
  intros Hfresh. unfold find_events. rewrite !merge_sort_Permutation. simpl.
  change (map snd ?l) with (snd <$> l).
  rewrite (map_to_list_insert _ _ _ Hfresh). csimpl.
  case_decide.
  - by rewrite filter_cons_True.
  - by rewrite filter_cons_False.
Qed.

Lemma summarize_events_snoc (events : list Event) (e : Event) :
  Report.summarize_events (events ++ [e])
  = Report.count_event (Report.summarize_events events) e.
Proof. unfold Report.summarize_events. by rewrite fold_left_app. Qed.

(** Counting looks at the type of an event only. *)
Lemma count_event_by_type (counts : gmap string Z) (e e' : Event) :
  event_type e = event_type e' →
  Report.count_event counts e = Report.count_event counts e'.
Proof. intros Heq. unfold Report.count_event. by rewrite Heq. Qed.

End LoggedEvents.

(** A logged event shows in the next report of its session, and only there:
    the summary of the session's events is the previous summary with this
    event counted, the summaries of all other sessions are unchanged, and the
    event carries the time of the request unless the payload names one. *)
Theorem log_event_reaches_report {S : Type} `{Storage.BaseStorage S}
    (st st' : Main.State S) (sid uuid : string) (now : Z)
    (payload : LogEventRequest) (ev : Event) :
  Main.log_event st sid uuid now payload = (Main.Ok ev, st') →
  Report.summarize_events (Main.find_events st' sid)
  = Report.count_event (Report.summarize_events (Main.find_events st sid)) ev
  ∧ (∀ other, other ≠ sid →
       Report.summarize_events (Main.find_events st' other)
       = Report.summarize_events (Main.find_events st other))
  ∧ event_type ev = req_event_type payload
  ∧ timestamp ev = default now (req_timestamp payload)
  ∧ Main.sessions_collection st' = Main.sessions_collection st.
Proof.
  unfold Main.log_event.
  destruct (Main.sessions_collection st !! sid); [|done].
  destruct (Main.events_collection st !! uuid) eqn:Hfresh; [done|].
  intros [= <- <-]. split; [|split; [|done]].
  - set (stored := mkEvent (Some uuid) sid (req_event_type payload)
                     (req_message payload)
                     (bson_datetime (default now (req_timestamp payload)))).
    rewrite (count_event_by_type _ _ stored) by done.
    rewrite <-summarize_events_snoc. apply summary_order_free.
    rewrite find_events_insert by done. simpl.
    rewrite decide_True by done. simpl. apply Permutation_cons_append.
  - intros other Hne. apply summary_order_free.
    rewrite find_events_insert by done. simpl.
    by rewrite decide_False by done.
Qed.

Lemma log_event_reaches_report_witness :
  let H := Storage.permissive in
  let payload := mkLogEventRequest "phone_detected" None None in
  ∃ ev st',
    Main.log_event one_open_session "s1" "e1" 20750 payload = (Main.Ok ev, st')
    ∧ dict_get (Report.summarize_events (Main.find_events st' "s1")) "phone_detected"
      = 1
    ∧ timestamp ev = 20750.
Proof.
  intros P payload. eexists _, _. split; [reflexivity|].
  destruct (log_event_reaches_report one_open_session _ "s1" "e1" 20750 payload _ eq_refl)
    as (Hsum & _ & _ & Htime & _).
  split; [rewrite Hsum; reflexivity|exact Htime].
Defined.

(** ** From the end of a session to its report *)

(** Once a session is ended at [t1], every later report of it, whatever
    requests are handled in between, states the same duration:
    [int((end - start).total_seconds())] for the stored start and for [t1]
    cut to milliseconds, which is their difference in whole seconds, rounded
    towards zero, when they are less than 2^33 seconds apart; and it states
    the candidate name the session was stored with. *)
Theorem report_after_end_session {S : Type} `{Storage.BaseStorage S}
    (st st' : Main.State S) (sid : string) (d : Main.SessionDoc) (t1 : Z)
    (requests : list Main.Request) (html : Storage.bytes) (r : ReportResponse) :
  Main.sessions_collection st !! sid = Some d →
  Main.doc_end_time d = None →
  Main.get_report
    (fold_left Main.handle requests (Main.end_session st sid t1).2) sid html
  = (Main.Ok r, st') →
  let delta := bson_datetime t1 - Main.doc_start_time d in
  interview_duration_seconds r = int_total_seconds delta
  ∧ (Z.abs delta < 2 ^ 33 * 1000000 →
     interview_duration_seconds r = Z.quot delta 1000000)
  ∧ report_candidate_name r = Main.doc_candidate_name d
  ∧ report_session_id r = sid.
Proof.
  intros Hd Hopen.
  rewrite (end_session_unset st sid t1 d Hd Hopen). simpl.
  set (st1 := Main.with_sessions st _).
  assert (Hd1 : Main.sessions_collection st1 !! sid
                = Some (Main.set_end_time (bson_datetime t1) d))
    by apply lookup_insert_eq.
  destruct (run_keeps_session requests st1 sid _ Hd1) as (d2 & Hd2 & Hname & Hstart).
  assert (Hend : Main.ended_at st1 sid (bson_datetime t1)) by (by eexists).
  apply (run_keeps_end_time requests) in Hend as (d3 & Hd3 & Hend).
  rewrite Hd2 in Hd3. injection Hd3 as <-.
  unfold Main.get_report. rewrite Hd2.
  destruct (Storage.save_report_bytes _ _ _ _) as [[ref|] storage']; [|done].
  intros [= <- _]. simpl. unfold Main.api_duration_seconds.
  rewrite Hend, Hstart, Hname. simpl.
  split; [done|]. split; [|done]. apply int_total_seconds_quot.
Qed.

Lemma report_after_end_session_witness :
  let H := Storage.permissive in
  ∃ r st',
    Main.get_report
      (fold_left Main.handle
         [Main.EndSession "s1" 99000000;
          Main.LogEvent "s1" "e1" 50000 (mkLogEventRequest "no_face" None None)]
         (Main.end_session one_open_session "s1" 7509999).2) "s1" [Byte.x01]
    = (Main.Ok r, st')
    ∧ (interview_duration_seconds r = int_total_seconds (7509000 - 10000)
       ∧ (Z.abs (7509000 - 10000) < 2 ^ 33 * 1000000 →
          interview_duration_seconds r = Z.quot (7509000 - 10000) 1000000)
       ∧ report_candidate_name r = "Ada"
       ∧ report_session_id r = "s1").
Proof.
  intros P. eexists _, _. split; [reflexivity|].
  eapply (report_after_end_session one_open_session _ "s1"
            (Main.mkSessionDoc "Ada" 10000 None None) 7509999
            [Main.EndSession "s1" 99000000;
             Main.LogEvent "s1" "e1" 50000 (mkLogEventRequest "no_face" None None)]
            [Byte.x01]); reflexivity.
Defined.

(** ** Uploads, stored reports and their retrieval *)

Section StringSuffix.
Import Main.

Lemma string_app_cons x (a b : string) :
  (String x a ++ b)%string = String x (a ++ b).
Proof. reflexivity. Qed.

Lemma string_app_assoc (a b c : string) : ((a ++ b) ++ c = a ++ (b ++ c))%string.
Proof.
  induction a as [|x a IH]; [done|]. by rewrite !string_app_cons, IH.
Qed.

Lemma string_app_nil_r (a : string) : (a ++ "")%string = a.
Proof. induction a as [|x a IH]; [done|]. by rewrite string_app_cons, IH. Qed.

Lemma string_rev_app (a b : string) :
  string_rev (a ++ b) = (string_rev b ++ string_rev a)%string.
Proof.
  induction a as [|x a IH].
  - change (string_rev "") with "". by rewrite string_app_nil_r.
  - rewrite string_app_cons.
    change (string_rev (String x ?s)) with (string_rev s ++ String x "")%string.
    rewrite IH. apply string_app_assoc.
Qed.

Lemma prefix_app (a b : string) : String.prefix a (a ++ b) = true.
Proof.
  induction a as [|x a IH]; [by destruct b|].
  rewrite string_app_cons. simpl. by destruct (ascii_dec x x).
Qed.

Lemma endswith_app (p suffix : string) : endswith (p ++ suffix) suffix = true.
Proof. unfold endswith. rewrite string_rev_app. apply prefix_app. Qed.

Lemma csv_name_is_not_html (p : string) : endswith (p ++ ".csv") ".html" = false.
Proof. unfold endswith. by rewrite string_rev_app. Qed.

End StringSuffix.

(** On the Deta backend an uploaded video can be fetched again: after
    [upload_video] answers, the session and the response carry the reference
    [videos/<id><suffix>], and [get_video] under the name [<id><suffix>]
    returns the uploaded bytes. *)
Theorem deta_upload_then_get_video `{Storage.Platform}
    (st st' : Main.State Storage.DetaStorage) (sid suffix : string)
    (content : Storage.bytes) (update_ok : bool) (resp : SessionResponse) :
  Main.upload_video st sid suffix content update_ok = (Main.Ok resp, st') →
  resp_video_path resp = Some ("videos/" ++ sid ++ suffix)%string
  ∧ (∃ d, Main.sessions_collection st' !! sid = Some d
          ∧ Main.doc_video_path d = Some ("videos/" ++ sid ++ suffix)%string)
  ∧ Main.get_video st' (sid ++ suffix) = Main.Ok content.
Proof.
  unfold Main.upload_video.
  destruct (Main.sessions_collection st !! sid) as [d|] eqn:Hd; [|done].
  destruct (Storage.save_video_bytes _ _ _) as [[ref|] storage'] eqn:Hsave; [|done].
  apply deta_save_video_returns in Hsave as [-> ->].
  destruct update_ok; [|done].
  intros [= <- <-]. split; [done|]. split.
  - exists (Main.set_video_path ("videos/" ++ sid ++ suffix) d). simpl.
    by rewrite lookup_alter_eq, Hd.
  - unfold Main.get_video. simpl. unfold Storage.deta_open_bytes. simpl.
    by rewrite lookup_insert_eq.
Qed.

Lemma deta_upload_then_get_video_witness :
  let H := Storage.permissive in
  ∃ resp st',
    Main.upload_video one_open_session "s1" ".webm" [Byte.x01; Byte.x02] true
    = (Main.Ok resp, st')
    ∧ Main.get_video st' "s1.webm" = Main.Ok [Byte.x01; Byte.x02].
Proof.
  intros P. eexists _, _. split; [reflexivity|].
  eapply (@deta_upload_then_get_video P one_open_session _ "s1" ".webm"
            [Byte.x01; Byte.x02] true). reflexivity.
Defined.

(** On the local backend an upload writes the file and stores its path in
    the session, and [get_video] refuses every name with 404: the file is
    left to the static mount. *)
Theorem local_upload_is_left_to_static_mount `{Storage.Platform}
    (st st' : Main.State Storage.LocalStorage) (sid suffix : string)
    (content : Storage.bytes) (update_ok : bool) (resp : SessionResponse) :
  Main.upload_video st sid suffix content update_ok = (Main.Ok resp, st') →
  let path := Storage.joinpath (Storage.video_dir (Main.storage st)) (sid ++ suffix) in
  resp_video_path resp = Some path
  ∧ Storage.files (Main.storage st') !! Storage.file_of path = Some content
  ∧ ∀ name, Main.get_video st' name
            = Main.HTTPException 404 "Use /videos static mount".
Proof.
  unfold Main.upload_video.
  destruct (Main.sessions_collection st !! sid) as [d|] eqn:Hd; [|done].
  destruct (Storage.save_video_bytes _ _ _) as [[ref|] storage'] eqn:Hsave; [|done].
  apply local_save_video_returns in Hsave as [-> ->].
  destruct update_ok; [|done].
  intros [= <- <-]. simpl. split; [done|]. split; [|done].
  apply lookup_insert_eq.
Qed.

Lemma local_upload_is_left_to_static_mount_witness :
  let H := Storage.permissive in
  let st := Main.mkState {["s1" := Main.mkSessionDoc "Ada" 10000 None None]} ∅
              fresh_local in
  ∃ resp st',
    Main.upload_video st "s1" ".webm" [Byte.x01] true = (Main.Ok resp, st')
    ∧ resp_video_path resp = Some "data/videos/s1.webm"
    ∧ Main.get_video st' "s1.webm"
      = Main.HTTPException 404 "Use /videos static mount".
Proof.
  intros P st. eexists _, _. split; [reflexivity|].
  destruct (@local_upload_is_left_to_static_mount P st _ "s1" ".webm" [Byte.x01]
              true _ eq_refl) as (Hpath & _ & Hget).
  split; [exact Hpath|apply Hget].
Defined.

(** On the Deta backend a report request stores what it rendered where
    [get_report_file] finds it: the page under [report_<id>.html] with media
    type [text/html], the CSV under [report_<id>.csv] with [text/csv]; and
    neither request touches the two collections. *)
Theorem deta_report_is_retrievable `{Storage.Platform}
    (st st' : Main.State Storage.DetaStorage) (sid : string) :
  (∀ html r, Main.get_report st sid html = (Main.Ok r, st') →
     Main.get_report_file st' ("report_" ++ sid ++ ".html")
     = Main.Ok (html, "text/html")
     ∧ Main.sessions_collection st' = Main.sessions_collection st
     ∧ Main.events_collection st' = Main.events_collection st)
  ∧ (∀ csv body, Main.download_report_csv st sid csv = (Main.Ok body, st') →
       body = csv
       ∧ Main.get_report_file st' ("report_" ++ sid ++ ".csv")
         = Main.Ok (csv, "text/csv")
       ∧ Main.sessions_collection st' = Main.sessions_collection st
       ∧ Main.events_collection st' = Main.events_collection st).
Proof.
  split.
  - intros html r. unfold Main.get_report.
    destruct (Main.sessions_collection st !! sid) as [d|]; [|done].
    destruct (Storage.save_report_bytes _ _ _ _) as [[ref|] storage'] eqn:Hsave;
      [|done].
    apply (deta_save_report_returns _ _ _ _ "text/html") in Hsave as [-> ->].
    intros [= _ <-]. split; [|done].
    unfold Main.get_report_file. simpl. unfold Storage.deta_open_bytes. simpl.
    rewrite lookup_insert_eq.
    by rewrite <-string_app_assoc, endswith_app.
  - intros csv body. unfold Main.download_report_csv.
    destruct (Main.sessions_collection st !! sid) as [d|]; [|done].
    destruct (Storage.save_report_bytes _ _ _ _) as [[ref|] storage'] eqn:Hsave;
      [|done].
    apply (deta_save_report_returns _ _ _ _ "text/csv") in Hsave as [-> ->].
    intros [= <- <-]. split; [done|]. split; [|done].
    unfold Main.get_report_file. simpl. unfold Storage.deta_open_bytes. simpl.
    rewrite lookup_insert_eq.
    by rewrite <-string_app_assoc, csv_name_is_not_html.
Qed.

Lemma deta_report_is_retrievable_witness :
  let H := Storage.permissive in
  ∃ r st',
    Main.get_report one_open_session "s1" [Byte.x3c] = (Main.Ok r, st')
    ∧ Main.get_report_file st' "report_s1.html" = Main.Ok ([Byte.x3c], "text/html").
Proof.
  intros P. eexists _, _. split; [reflexivity|].
  eapply (proj1 (@deta_report_is_retrievable P one_open_session _ "s1")).
  reflexivity.
Defined.

(** ** Listings *)

Section Listings.
Import Main.

Lemma newer_total : Total newer.
Proof. intros a b. unfold newer. lia. Qed.


Lemma session_response_inj k k' d d' :
  session_response k d = session_response k' d' → k = k' ∧ d = d'.
Proof. destruct d, d'. unfold session_response. simpl. by intros [= -> -> -> -> ->]. Qed.

End Listings.

(** [list_sessions] answers with every stored session exactly once, under
    its id and with its stored fields, the latest start time first. *)
Theorem list_sessions_complete_newest_first {S : Type} `{Storage.BaseStorage S}
    (st : Main.State S) :
  Sorted (λ a b, resp_start_time b ≤ resp_start_time a) (Main.list_sessions st)
  ∧ length (Main.list_sessions st) = size (Main.sessions_collection st)
  ∧ ∀ k d, Main.session_response k d ∈ Main.list_sessions st
           ↔ Main.sessions_collection st !! k = Some d.
Proof.
  unfold Main.list_sessions. change (map ?f ?l) with (f <$> l).
  split; [|split].
  - apply (Sorted_fmap _ Main.newer); [by intros [??] [??]|].
    apply (@Sorted_merge_sort _ Main.newer _ newer_total).
  - by rewrite length_fmap, merge_sort_Permutation, length_map_to_list.
  - intros k d. rewrite list_elem_of_fmap. split.
    + intros ([k' d'] & Heq & Hin). rewrite merge_sort_Permutation in Hin.
      apply elem_of_map_to_list in Hin. simpl in Heq.
      by apply session_response_inj in Heq as [-> ->].
    + intros Hd. exists (k, d). split; [done|].
      rewrite merge_sort_Permutation. by apply elem_of_map_to_list.
Qed.


